(** * Twitter trending-hashtag scraper: the enrichment functions of
      [t3_scraper.py], embedded and verified.

    The development follows the source file top-down:
    - [Float64]: Python's [float] (IEEE 754 binary64, round to nearest even),
    - [Str]: Python's [str] as a sequence of code points,
    - [Py]: exceptions and dynamically typed values,
    - the functions [get_hashtag_post_content], [analyze_hashtag_sentiment],
      [calculate_engagement_score], [parse_post_count] and the row-building
      loop of [insert_fresh_data_only],
    - the properties of the specification. *)

From Stdlib Require Import ZArith List String Ascii Bool Lia.
From Stdlib Require Floats.SpecFloat.
Import ListNotations.
Local Open Scope Z_scope.

(* ================================================================== *)
(** * Binary64 arithmetic *)
(* ================================================================== *)

Module Float64.

(** Every finite binary64 number is an integer multiple of [2^-1074], the
    smallest positive subnormal.  A finite float is stored as that multiple
    (its number of _units_), so comparisons are comparisons of integers and
    every operation is "compute exactly, then round to nearest, ties to
    even, at 53 significant bits".  The sign of zero is not represented: the
    program never observes it ([int(-0.0)] is [0] and no float is printed,
    divided by, or passed to [copysign]). *)
Inductive float : Type :=
| Finite (u : Z)
| Inf (negative : bool)
| NaN.

Definition unit_scale : Z := 2 ^ 1074.

(** Nearest integer to [p / q] for [q > 0], ties to the even neighbour. *)
Definition rne (p q : Z) : Z :=
  let f := p / q in
  match (2 * (p mod q)) ?= q with
  | Lt => f
  | Gt => f + 1
  | Eq => if Z.even f then f else f + 1
  end.

(** Rounding of the non-negative rational [p / q] (a number of units) to a
    number of units with at most 53 significant bits.  Below [2^53] units
    the spacing of binary64 is one unit (subnormals and the first normal
    binade); above, it is [2^k] units with [k = floor(log2 (p/q)) - 52]. *)
Definition round_units (p q : Z) : Z :=
  let k := Z.log2 (p / q) - 52 in
  if k <=? 0 then rne p q else rne p (q * 2 ^ k) * 2 ^ k.

(** [2^1024], in units: what rounds to it or above overflows. *)
Definition overflow_threshold : Z := 2 ^ 2098.

(** The binary64 number nearest to the rational [p / q] units ([q > 0]). *)
Definition round64 (p q : Z) : float :=
  let r := round_units (Z.abs p) q in
  if overflow_threshold <=? r then Inf (p <? 0) else Finite (Z.sgn p * r).

(** The float nearest to the rational number [n / d] ([d > 0]): a decimal
    literal such as [1.5] is [of_ratio 15 10]. *)
Definition of_ratio (n d : Z) : float := round64 (n * unit_scale) d.

(** [float(n)] for a Python [int] that does not overflow. *)
Definition of_int (n : Z) : float := of_ratio n 1.

Definition add (x y : float) : float :=
  match x, y with
  | NaN, _ | _, NaN => NaN
  | Inf a, Inf b => if Bool.eqb a b then Inf a else NaN
  | Inf a, Finite _ => Inf a
  | Finite _, Inf b => Inf b
  | Finite a, Finite b => round64 (a + b) 1
  end.

Definition mul (x y : float) : float :=
  match x, y with
  | NaN, _ | _, NaN => NaN
  | Inf a, Inf b => Inf (xorb a b)
  | Inf a, Finite b => if b =? 0 then NaN else Inf (xorb a (b <? 0))
  | Finite a, Inf b => if a =? 0 then NaN else Inf (xorb (a <? 0) b)
  | Finite a, Finite b => round64 (a * b) unit_scale
  end.

(** [x < y] on floats; every comparison with a NaN is false. *)
Definition ltb (x y : float) : bool :=
  match x, y with
  | NaN, _ | _, NaN => false
  | Finite a, Finite b => a <? b
  | Finite _, Inf s => negb s
  | Inf s, Finite _ => s
  | Inf a, Inf b => a && negb b
  end.

Definition leb (x y : float) : bool :=
  match x, y with
  | NaN, _ | _, NaN => false
  | Finite a, Finite b => a <=? b
  | Finite _, Inf s => negb s
  | Inf s, Finite _ => s
  | Inf a, Inf b => a || negb b
  end.

(** A float against an exact integer, as Python compares [float] with
    [int]: by exact value. *)
Definition ltb_int (x : float) (n : Z) : bool :=
  match x with
  | NaN => false
  | Finite a => a <? n * unit_scale
  | Inf s => s
  end.

Definition gtb_int (x : float) (n : Z) : bool :=
  match x with
  | NaN => false
  | Finite a => n * unit_scale <? a
  | Inf s => negb s
  end.

(** [round(x, 2)]: the exact value is rounded half-even to a multiple of
    [1/100], and that decimal is read back to the nearest float. *)
Definition round2 (x : float) : float :=
  match x with
  | Finite u => of_ratio (rne (u * 100) unit_scale) 100
  | _ => x
  end.

(** Integer part, towards zero ([int(x)] on a finite float). *)
Definition trunc (u : Z) : Z := Z.quot u unit_scale.

(** ** Predicates used in the statements *)

(** [half_scale] units make [0.5]: every constant of the scorer is a whole
    number of halves. *)
Definition half_scale : Z := 2 ^ 1073.

(** A finite float between [lo] and [hi] halves. *)
Definition within (lo hi : Z) (x : float) : Prop :=
  exists u, x = Finite u /\ lo * half_scale <= u <= hi * half_scale.

(** The number of units of a finite float. *)
Definition units_of (x : float) : Z :=
  match x with
  | Finite u => u
  | _ => 0
  end.

(** A float that is not below zero: what [int] turns into a non-negative
    integer or rejects. *)
Definition nonneg (x : float) : Prop :=
  match x with
  | Finite u => 0 <= u
  | Inf s => s = false
  | NaN => True
  end.

(** ** The same numbers in the Standard Library's specification of
       IEEE 754

    [SpecFloat] specifies the operations of the binary formats on
    mantissa-exponent pairs; binary64 is the format of precision 53 and
    maximal exponent 1024.  The conversion normalizes [u * 2^-1074], and
    the checks below compare an operation of this file with the operation
    of [SpecFloat] on the converted operands. *)
Definition to_spec (x : float) : SpecFloat.spec_float :=
  match x with
  | Finite u => SpecFloat.binary_normalize 53 1024 u (-1074) false
  | Inf s => SpecFloat.S754_infinity s
  | NaN => SpecFloat.S754_nan
  end.

Definition spec_eqb (a b : SpecFloat.spec_float) : bool :=
  match a, b with
  | SpecFloat.S754_zero s, SpecFloat.S754_zero t => Bool.eqb s t
  | SpecFloat.S754_infinity s, SpecFloat.S754_infinity t => Bool.eqb s t
  | SpecFloat.S754_nan, SpecFloat.S754_nan => true
  | SpecFloat.S754_finite s m e, SpecFloat.S754_finite t n f =>
      Bool.eqb s t && Pos.eqb m n && Z.eqb e f
  | _, _ => false
  end.

Definition add_agrees (x y : float) : bool :=
  spec_eqb (to_spec (add x y)) (SpecFloat.SFadd 53 1024 (to_spec x) (to_spec y)).

Definition mul_agrees (x y : float) : bool :=
  spec_eqb (to_spec (mul x y)) (SpecFloat.SFmul 53 1024 (to_spec x) (to_spec y)).

(** The quotient of two integers that are floats themselves. *)
Definition ratio_agrees (n d : Z) : bool :=
  spec_eqb (to_spec (of_ratio n d))
    (SpecFloat.SFdiv 53 1024 (to_spec (of_int n)) (to_spec (of_int d))).

(** The arithmetic the scorer does on a count [k]: the quotient by 10000,
    its double, the sums with the base and two bonuses, and the reading
    back of the two-decimal rounding. *)
Definition count_term_agrees (k : Z) : bool :=
  let q := of_ratio k 10000 in
  let c := mul q (of_int 2) in
  let s := add (of_int 1) c in
  ratio_agrees k 10000 && mul_agrees q (of_int 2) && add_agrees (of_int 1) c
  && add_agrees s (of_ratio 15 10)
  && add_agrees (add s (of_ratio 15 10)) (of_ratio 5 10)
  && ratio_agrees (rne (units_of s * 100) unit_scale) 100.

Definition sample_counts : list Z :=
  [1; 7; 1234; 4999; 12345; 24999; 25000; 50000].

End Float64.

(* ================================================================== *)
(** * Strings *)
(* ================================================================== *)

Module Str.

(** A Python [str] is a sequence of Unicode code points. *)
Definition codepoint : Type := Z.
Definition str : Type := list codepoint.

Definition chr (a : ascii) : codepoint := Z.of_N (N_of_ascii a).
Definition lit (s : string) : str := map chr (list_ascii_of_string s).
Arguments chr a%_char.
Arguments lit s%_string.

(** What the interpreter knows beyond ASCII: the Unicode database entries
    the program consults for a code point of 128 and above, and the limit
    on the number of digits [int] accepts (0 when the limit is off; the
    interpreter does not allow a positive limit below 640).  Case is
    mapped character by character (the one rule of [str.lower] that looks
    at the context, on the Greek capital sigma, chooses between two
    letters beyond ASCII).  The program is verified for every such
    table. *)
Record runtime : Type := {
  uni_lower : codepoint -> str;
  uni_upper : codepoint -> str;
  uni_isdigit : codepoint -> bool;
  uni_decimal : codepoint -> option Z;
  uni_isspace : codepoint -> bool;
  int_max_str_digits : Z
}.

Definition is_ascii_digit (c : codepoint) : bool := (48 <=? c) && (c <=? 57).
Definition is_ascii_upper (c : codepoint) : bool := (65 <=? c) && (c <=? 90).
Definition is_ascii_lower (c : codepoint) : bool := (97 <=? c) && (c <=? 122).

Fixpoint eqb (s t : str) : bool :=
  match s, t with
  | [], [] => true
  | c :: s', d :: t' => (c =? d) && eqb s' t'
  | _, _ => false
  end.

Fixpoint startswith (p s : str) : bool :=
  match p, s with
  | [], _ => true
  | c :: p', d :: s' => (c =? d) && startswith p' s'
  | _ :: _, [] => false
  end.

(** [sub in s]. *)
Fixpoint contains (sub s : str) : bool :=
  startswith sub s ||
  match s with
  | [] => false
  | _ :: s' => contains sub s'
  end.

(** [s.replace(old, new)] for a one-character [old]. *)
Definition replace (old : codepoint) (new : str) (s : str) : str :=
  flat_map (fun c => if c =? old then new else [c]) s.

Section WithRuntime.
Variable R : runtime.

Definition lower_cp (c : codepoint) : str :=
  if c <? 128 then [if is_ascii_upper c then c + 32 else c] else uni_lower R c.

Definition upper_cp (c : codepoint) : str :=
  if c <? 128 then [if is_ascii_lower c then c - 32 else c] else uni_upper R c.

Definition lower (s : str) : str := flat_map lower_cp s.
Definition upper (s : str) : str := flat_map upper_cp s.

(** [str.isdigit] on one character. *)
Definition isdigit (c : codepoint) : bool :=
  if c <? 128 then is_ascii_digit c else uni_isdigit R c.

(** The decimal digit value of a character, when it has one. *)
Definition decimal (c : codepoint) : option Z :=
  if c <? 128 then (if is_ascii_digit c then Some (c - 48) else None)
  else match uni_decimal R c with
       | Some d => if (0 <=? d) && (d <=? 9) then Some d else None
       | None => None
       end.

End WithRuntime.

Definition is_digit_value (d : Z) : Prop := 0 <= d <= 9.

(** The value of a sequence of decimal digits, most significant first. *)
Definition digits_value (ds : list Z) : Z :=
  fold_left (fun acc d => 10 * acc + d) ds 0.

End Str.

(* ================================================================== *)
(** * Exceptions and dynamically typed values *)
(* ================================================================== *)

Module Py.
Import Str Float64.

Inductive exn : Type :=
| AttributeError | KeyError | TypeError | ValueError | OverflowError
| ZeroDivisionError | ExternalError.

Inductive result (A : Type) : Type :=
| Ok (a : A)
| Raise (e : exn).
Arguments Ok {A} a.
Arguments Raise {A} e.

Definition bind {A B : Type} (m : result A) (k : A -> result B) : result B :=
  match m with
  | Ok a => k a
  | Raise e => Raise e
  end.

(** [try: body  except: handler] *)
Definition try_except {A : Type} (body : result A) (handler : exn -> A) : A :=
  match body with
  | Ok a => a
  | Raise e => handler e
  end.

(** The values a dictionary entry of a scraped topic may hold. *)
Inductive value : Type :=
| VNone
| VInt (n : Z)
| VStr (s : str).

(** An [int] or a [float]: what [min] and [max] return on mixed
    arguments. *)
Inductive num : Type :=
| NInt (n : Z)
| NFloat (x : float).

(** A [dict] with string keys, by its items. *)
Definition dict (A : Type) : Type := list (str * A).

Fixpoint lookup {A : Type} (d : dict A) (key : str) : option A :=
  match d with
  | [] => None
  | (k, v) :: d' => if Str.eqb k key then Some v else lookup d' key
  end.

(** [d.get(key, default)] *)
Definition get {A : Type} (d : dict A) (key : str) (default : A) : A :=
  match lookup d key with
  | Some v => v
  | None => default
  end.

(** [d[key]] *)
Definition getitem {A : Type} (d : dict A) (key : str) : result A :=
  match lookup d key with
  | Some v => Ok v
  | None => Raise KeyError
  end.

Definition truthy (v : value) : bool :=
  match v with
  | VNone => false
  | VInt n => negb (n =? 0)
  | VStr s => match s with [] => false | _ => true end
  end.

(** [v == s] for a string literal [s]. *)
Definition eq_str (v : value) (s : str) : bool :=
  match v with
  | VStr t => Str.eqb t s
  | _ => false
  end.

(** A [str] method is looked up on the value: anything else has none. *)
Definition str_method (v : value) : result str :=
  match v with
  | VStr s => Ok s
  | _ => Raise AttributeError
  end.

(** [len(v)] *)
Definition len (v : value) : result Z :=
  match v with
  | VStr s => Ok (Z.of_nat (List.length s))
  | _ => Raise TypeError
  end.

Definition to_float (n : num) : float :=
  match n with
  | NInt k => of_int k
  | NFloat x => x
  end.

(** [max(n, x)] and [min(n, x)] for an [int] literal [n] and a number [x]:
    the first argument wins unless the second is strictly beyond it. *)
Definition max_int (n : Z) (x : num) : num :=
  match x with
  | NInt k => if n <? k then NInt k else NInt n
  | NFloat f => if gtb_int f n then NFloat f else NInt n
  end.

Definition min_int (n : Z) (x : num) : num :=
  match x with
  | NInt k => if k <? n then NInt k else NInt n
  | NFloat f => if ltb_int f n then NFloat f else NInt n
  end.

(** [a / b] on two [int]s: the correctly rounded quotient. *)
Definition truediv (a b : Z) : result float :=
  if b =? 0 then Raise ZeroDivisionError
  else match round64 (Z.sgn b * a * unit_scale) (Z.abs b) with
       | Inf _ => Raise OverflowError
       | q => Ok q
       end.

(** [int(x)] on a [float]. *)
Definition int_of_float (x : float) : result Z :=
  match x with
  | Finite u => Ok (trunc u)
  | Inf _ => Raise OverflowError
  | NaN => Raise ValueError
  end.

Section WithRuntime.
Variable R : runtime.

Fixpoint decimals (s : str) : option (list Z) :=
  match s with
  | [] => Some []
  | c :: s' =>
      match decimal R c, decimals s' with
      | Some d, Some ds => Some (d :: ds)
      | _, _ => None
      end
  end.

(** [int(s)] on a string of [str.isdigit] characters (no sign, blank or
    underscore can occur in it): every character must be a decimal digit,
    there must be one, and there must not be too many. *)
Definition int_of_digits (s : str) : result Z :=
  let n := Z.of_nat (List.length s) in
  match s, decimals s with
  | [], _ => Raise ValueError
  | _, None => Raise ValueError
  | _, Some ds =>
      if (640 <? n) && (0 <? int_max_str_digits R) && (int_max_str_digits R <? n)
      then Raise ValueError
      else Ok (digits_value ds)
  end.

(** ** [float(s)] *)

Definition is_ascii_space (c : codepoint) : bool :=
  ((9 <=? c) && (c <=? 13)) || (c =? 32).

(** [str.isspace] on one character. *)
Definition isspace (c : codepoint) : bool :=
  if c <? 128 then is_ascii_space c || ((28 <=? c) && (c <=? 31))
  else uni_isspace R c.

(** The argument is first made ASCII.  A text of ASCII characters is left
    as it is; in any other, a blank becomes a space, a decimal digit of any
    script its ASCII digit, and the text is cut at the first other
    character from 127 on, which is replaced by a question mark. *)
Fixpoint transform_decimal_and_space (s : str) : str :=
  match s with
  | [] => []
  | c :: s' =>
      if c <? 127 then c :: transform_decimal_and_space s'
      else if isspace c then 32 :: transform_decimal_and_space s'
      else match decimal R c with
           | Some d => (48 + d) :: transform_decimal_and_space s'
           | None => [63]
           end
  end.

Definition to_ascii (s : str) : str :=
  if forallb (fun c => c <? 128) s then s else transform_decimal_and_space s.

Fixpoint lstrip (s : str) : str :=
  match s with
  | [] => []
  | c :: s' => if is_ascii_space c then lstrip s' else s
  end.

Definition strip (s : str) : str := rev (lstrip (rev (lstrip s))).

(** An underscore is dropped when it stands between two digits and is an
    error anywhere else; [prev] is the character before [s]. *)
Fixpoint strip_underscores (prev : codepoint) (s : str) : option str :=
  match s with
  | [] => if prev =? 95 then None else Some []
  | c :: s' =>
      if c =? 95 then
        if is_ascii_digit prev then strip_underscores c s' else None
      else if (prev =? 95) && negb (is_ascii_digit c) then None
      else option_map (cons c) (strip_underscores c s')
  end.

Fixpoint span_digits (s : str) : list Z * str :=
  match s with
  | [] => ([], [])
  | c :: s' =>
      if is_ascii_digit c
      then let (ds, r) := span_digits s' in ((c - 48) :: ds, r)
      else ([], s)
  end.

Definition parse_sign (s : str) : bool * str :=
  match s with
  | [] => (false, [])
  | c :: s' =>
      if c =? 45 then (true, s') else if c =? 43 then (false, s') else (false, s)
  end.

(** The exponent part: nothing, or [e]/[E], a sign and digits, to the end
    of the text. *)
Definition parse_exponent (s : str) : option Z :=
  match s with
  | [] => Some 0
  | c :: s' =>
      if (c =? 101) || (c =? 69) then
        let (neg, s'') := parse_sign s' in
        match span_digits s'' with
        | (d :: ds, []) =>
            Some (if neg then - digits_value (d :: ds) else digits_value (d :: ds))
        | _ => None
        end
      else None
  end.

(** Digits, an optional point and more digits (one digit at least), an
    optional exponent: the mantissa as an integer and the power of ten. *)
Definition parse_decimal (s : str) : option (Z * Z) :=
  let (ip, r1) := span_digits s in
  let (fp, r2) :=
    match r1 with
    | c :: r => if c =? 46 then span_digits r else ([], r1)
    | [] => ([], [])
    end in
  match ip ++ fp, parse_exponent r2 with
  | _ :: _, Some e => Some (digits_value (ip ++ fp), e - Z.of_nat (List.length fp))
  | _, _ => None
  end.

Definition ascii_lower (s : str) : str :=
  map (fun c => if is_ascii_upper c then c + 32 else c) s.

(** The float nearest to [m * 10^e]. *)
Definition of_decimal (m e : Z) : float :=
  if 0 <=? e then round64 (m * 10 ^ e * unit_scale) 1
  else round64 (m * unit_scale) (10 ^ (- e)).

(** [float(s)]: underscores between digits and blanks around the text are
    dropped; what is left is a signed decimal number, an infinity or a
    not-a-number.  A number too large for a float is an infinity, not an
    error. *)
Definition float_of_str (s : str) : result float :=
  match strip_underscores 0 (to_ascii s) with
  | None => Raise ValueError
  | Some a =>
      match strip a with
      | [] => Raise ValueError
      | b =>
          let (neg, t) := parse_sign b in
          match parse_decimal t with
          | Some (m, e) => Ok (of_decimal (if neg then - m else m) e)
          | None =>
              if Str.eqb (ascii_lower t) (lit "inf")
                 || Str.eqb (ascii_lower t) (lit "infinity")
              then Ok (Inf neg)
              else if Str.eqb (ascii_lower t) (lit "nan") then Ok NaN
              else Raise ValueError
          end
      end
  end.

End WithRuntime.

End Py.

(* ================================================================== *)
(** * The scraper's functions *)
(* ================================================================== *)

Import Str Float64 Py.

Notation "x <- m ;; k" := (bind m (fun x => k))
  (at level 61, m at next level, right associativity).

(** A scraped topic, as [get_trending_topics] builds it: three strings. *)
Record RawTrend : Type := {
  topic : str;
  count : str;
  twitter_link : str
}.

Definition as_dict (t : RawTrend) : dict value :=
  [ (lit "topic", VStr (topic t));
    (lit "count", VStr (count t));
    (lit "twitter_link", VStr (twitter_link t)) ].

Record Metadata : Type := {
  md_twitter_link : str;
  md_post_content : str;
  md_raw_count : str
}.

(** A row of the [twitter] table. *)
Record EnrichedTrend : Type := {
  platform : str;
  topic_hashtag : str;
  engagement_score : float;
  sentiment_polarity : float;
  sentiment_label : str;
  posts : Z;
  views : Z;
  metadata : Metadata;
  version_id : str
}.

(** What the program asks of the remote table. *)
Inductive store_op : Type :=
| DeleteWherePlatform (p : str)
| InsertRows (rows : list EnrichedTrend).

Definition generate_twitter_search_link (topic : str) : str :=
  lit "https://twitter.com/search?q=" ++ replace (chr "#") (lit "%23") topic.

(** The mapping of [get_hashtag_post_content], in the order it is written. *)
Definition sample_contents (hashtag_clean : str) : dict str :=
  [ (lit "election",
     lit "Breaking: Major developments in " ++ hashtag_clean
       ++ lit ". Citizens actively participating in democratic process.");
    (lit "flood",
     lit "Emergency update on " ++ hashtag_clean
       ++ lit ". Relief operations underway, stay safe and follow official guidelines.");
    (lit "dharma",
     lit "Spiritual discourse on " ++ hashtag_clean
       ++ lit ". Ancient wisdom for modern times.");
    (lit "football",
     lit "Exciting match updates for " ++ hashtag_clean
       ++ lit ". Team performance analysis and fan reactions.");
    (lit "bollywood",
     lit "Latest entertainment news about " ++ hashtag_clean
       ++ lit ". Celebrity updates and movie reviews.");
    (lit "batra",
     lit "Tribute to heroes in " ++ hashtag_clean
       ++ lit ". Remembering courage and sacrifice for the nation.");
    (lit "default",
     lit "Trending discussion about " ++ hashtag_clean
       ++ lit ". Join the conversation and share your thoughts.") ].

(** [for key, content in items: if key in text: return content] *)
Fixpoint first_match (items : dict str) (text : str) : option str :=
  match items with
  | [] => None
  | (key, content) :: rest =>
      if contains key text then Some content else first_match rest text
  end.

(** [any(keyword in text for keyword in keywords)] *)
Definition any_in (keywords : list str) (text : str) : bool :=
  existsb (fun keyword => contains keyword text) keywords.

Definition trending_keywords : list str :=
  [lit "election"; lit "breaking"; lit "urgent"; lit "live"; lit "update"; lit "news"].

Definition indian_keywords : list str :=
  [lit "india"; lit "indian"; lit "bharath"; lit "delhi"; lit "mumbai";
   lit "modi"; lit "bjp"; lit "congress"].

Definition marker_substrings : list str :=
  [lit "2024"; lit "2023"; lit "!"; lit "@"].

Section Scraper.

Variable R : runtime.

(** [TextBlob(text).sentiment.polarity]: the external sentiment library,
    which returns a float or fails. *)
Variable textblob_polarity : str -> result float.

(** The identifier drawn once per run. *)
Variable SCRAPE_VERSION_ID : str.

Definition get_hashtag_post_content (hashtag : str) : str :=
  try_except
    (let hashtag_clean := replace (chr "#") [] hashtag in
     let contents := sample_contents hashtag_clean in
     let hashtag_lower := lower R hashtag_clean in
     match first_match contents hashtag_lower with
     | Some content => Ok content
     | None => getitem contents (lit "default")
     end)
    (fun _ => lit "Trending topic: " ++ hashtag ++ lit ". Join the discussion.").

(** The label of a polarity. *)
Definition sentiment_of (polarity : float) : str :=
  if ltb (of_ratio 5 100) polarity then lit "Positive"
  else if ltb polarity (of_ratio (-5) 100) then lit "Negative"
  else lit "Neutral".

Definition analyze_hashtag_sentiment (hashtag : str) : str * float :=
  try_except
    (let clean_text := replace (chr "_") (lit " ") (replace (chr "#") [] hashtag) in
     polarity <- textblob_polarity clean_text ;;
     Ok (sentiment_of polarity, polarity))
    (fun _ => (lit "Neutral", Finite 0)).

(** The digits the scorer reads out of a count, [K] and [M] spelt out as
    zeros. *)
Definition scorer_digits (count_str : str) : str :=
  let count_clean :=
    replace (chr ",") []
      (replace (chr "M") (lit "000000") (replace (chr "K") (lit "000") count_str)) in
  filter (isdigit R) count_clean.

(** The inner [try] of the scorer: the score after the count has been
    taken into account. *)
Definition add_count (engagement_score : float) (count_str : value) : result float :=
  s <- str_method count_str ;;
  let count_clean := scorer_digits s in
  match count_clean with
  | [] => Ok engagement_score
  | _ =>
      tweet_count <- int_of_digits R count_clean ;;
      if 0 <? tweet_count then
        q <- truediv tweet_count 10000 ;;
        Ok (add engagement_score
              (to_float (min_int 5 (max_int 0 (NFloat (mul q (of_int 2)))))))
      else Ok engagement_score
  end.

(** The body of the outer [try] of the scorer. *)
Definition engagement_score_body (topic_data : dict value) : result float :=
  let topic := get topic_data (lit "topic") (VStr []) in
  let count_str := get topic_data (lit "count") (VStr (lit "N/A")) in
  let engagement_score := of_ratio 10 10 in
  let engagement_score :=
    if negb (eq_str count_str (lit "N/A")) && truthy count_str
    then try_except (add_count engagement_score count_str) (fun _ => engagement_score)
    else engagement_score in
  topic_text <- str_method topic ;;
  let topic_lower := lower R topic_text in
  let engagement_score :=
    if any_in trending_keywords topic_lower
    then add engagement_score (of_ratio 15 10) else engagement_score in
  let engagement_score :=
    if any_in indian_keywords topic_lower
    then add engagement_score (of_ratio 10 10) else engagement_score in
  n <- len topic ;;
  let engagement_score :=
    if 15 <? n then add engagement_score (of_ratio 5 10) else engagement_score in
  let engagement_score :=
    if any_in marker_substrings topic_text
    then add engagement_score (of_ratio 5 10) else engagement_score in
  Ok (to_float (max_int 1 (min_int 10 (NFloat (round2 engagement_score))))).

Definition calculate_engagement_score (topic_data : dict value) : float :=
  try_except (engagement_score_body topic_data) (fun _ => of_ratio 10 10).

(** The body of the [try] of the count parser. *)
Definition post_count_body (count_str : str) : result Z :=
  let count_clean := replace (chr ",") [] count_str in
  if contains (lit "M") (upper R count_clean) then
    x <- float_of_str R (replace (chr "M") [] (upper R count_clean)) ;;
    int_of_float (mul x (of_int 1000000))
  else if contains (lit "K") (upper R count_clean) then
    x <- float_of_str R (replace (chr "K") [] (upper R count_clean)) ;;
    int_of_float (mul x (of_int 1000))
  else int_of_digits R (filter (isdigit R) count_clean).

Definition parse_post_count (count_str : str) : Z :=
  if Str.eqb count_str (lit "N/A") || match count_str with [] => true | _ => false end
  then 0
  else try_except (post_count_body count_str) (fun _ => 0).

(** One turn of the loop of [insert_fresh_data_only]. *)
Definition process_topic (t : RawTrend) : EnrichedTrend :=
  let engagement_score := calculate_engagement_score (as_dict t) in
  let '(sentiment_label, sentiment_polarity) := analyze_hashtag_sentiment (topic t) in
  let twitter_link :=
    match get (as_dict t) (lit "twitter_link")
            (VStr (generate_twitter_search_link (topic t))) with
    | VStr l => l
    | _ => []
    end in
  let post_content := get_hashtag_post_content (topic t) in
  let posts_count := parse_post_count (count t) in
  {| platform := lit "Twitter";
     topic_hashtag := topic t;
     engagement_score := engagement_score;
     sentiment_polarity := sentiment_polarity;
     sentiment_label := sentiment_label;
     posts := posts_count;
     views := 0;
     metadata := {| md_twitter_link := twitter_link;
                    md_post_content := post_content;
                    md_raw_count := count t |};
     version_id := SCRAPE_VERSION_ID |}.

(** The list the loop builds, one [append] per topic. *)
Definition processed_topics (topics_list : list RawTrend) : list EnrichedTrend :=
  fold_left (fun acc t => acc ++ [process_topic t]) topics_list [].

Definition insert_fresh_data_only (topics_list : list RawTrend) : list store_op :=
  match topics_list with
  | [] => []
  | _ => [DeleteWherePlatform (lit "Twitter"); InsertRows (processed_topics topics_list)]
  end.

End Scraper.

(* ================================================================== *)
(** * Definitions used in the statements *)
(* ================================================================== *)

(** An interpreter in which no character beyond ASCII has a case, is a
    digit or is a blank, with the default limit on [int] digits: what the
    functions are run with on ASCII inputs. *)
Definition ascii_runtime : runtime :=
  {| uni_lower := fun c => [c];
     uni_upper := fun c => [c];
     uni_isdigit := fun _ => false;
     uni_decimal := fun _ => None;
     uni_isspace := fun _ => false;
     int_max_str_digits := 4300 |}.

(** The keyword fragments of the content mapping, without its [default]
    entry. *)
Definition keyword_fragments : list str :=
  [lit "election"; lit "flood"; lit "dharma"; lit "football"; lit "bollywood";
   lit "batra"].

(** The generic template of the content mapping. *)
Definition default_content (hashtag_clean : str) : str :=
  lit "Trending discussion about " ++ hashtag_clean
    ++ lit ". Join the conversation and share your thoughts.".

(** The text handed to the sentiment library. *)
Definition sentiment_text (hashtag : str) : str :=
  replace (chr "_") (lit " ") (replace (chr "#") [] hashtag).

(** The dictionary of a topic and a count. *)
Definition topic_and_count (topic count : str) : dict value :=
  [(lit "topic", VStr topic); (lit "count", VStr count)].

(** ** The scorer as the specification words it

    Step 1 of the specification parses the raw count with the count parser
    and adds [min(5, max(0, count / 10000 * 2))] when the count is
    positive; steps 2 to 5 add the keyword, length and marker bonuses; step
    6 clamps the total to [[1, 10]] and rounds it to two decimals. *)
Section SpecScorer.

Variable R : runtime.

Definition spec_count_step (total : float) (rawCount : str) : float :=
  let count := parse_post_count R rawCount in
  if 0 <? count then
    match truediv count 10000 with
    | Ok q => add total (to_float (min_int 5 (max_int 0 (NFloat (mul q (of_int 2))))))
    | Raise _ => total
    end
  else total.

Definition spec_scoreEngagement (topic rawCount : str) : float :=
  let total := spec_count_step (of_int 1) rawCount in
  let total :=
    if any_in trending_keywords (lower R topic) then add total (of_ratio 15 10) else total in
  let total :=
    if any_in indian_keywords (lower R topic) then add total (of_int 1) else total in
  let total :=
    if 15 <? Z.of_nat (List.length topic) then add total (of_ratio 5 10) else total in
  let total :=
    if any_in marker_substrings topic then add total (of_ratio 5 10) else total in
  round2 (to_float (max_int 1 (min_int 10 (NFloat total)))).

End SpecScorer.

(* ================================================================== *)
(** * The trend extractor, the entry point and the remote table *)
(* ================================================================== *)

Definition indian_terms : list str :=
  [lit "india"; lit "bharat"; lit "hindu"; lit "delhi"; lit "mumbai";
   lit "bangalore"; lit "chennai"; lit "kolkata"].

(** The Devanagari block, U+0900 to U+097F. *)
Definition is_devanagari (c : codepoint) : bool := (2304 <=? c) && (c <=? 2431).

(** A link of class [trend-link] of the fetched page, as the HTML parser
    gives it: its text, and what is found above it -- no enclosing list
    item ([None]), a list item without a span of class [tweet-count]
    ([Some None]), or the text of that span. *)
Record trend_link : Type := {
  link_text : str;
  parent_li : option (option str)
}.

Definition urls_to_try : list str :=
  [lit "https://trends24.in/india/"; lit "http://trends24.in/india/";
   lit "https://www.trends24.in/india/"].

(** The table after a request that succeeded: a delete drops the rows of
    the platform, an insert adds the rows at the end. *)
Definition apply_store_op (table : list EnrichedTrend) (op : store_op) :
    list EnrichedTrend :=
  match op with
  | DeleteWherePlatform p => filter (fun r => negb (Str.eqb (platform r) p)) table
  | InsertRows rows => table ++ rows
  end.

Definition apply_store_ops (ops : list store_op) (table : list EnrichedTrend) :
    list EnrichedTrend :=
  fold_left apply_store_op ops table.

Section Extractor.

Variable R : runtime.

(** [requests.get(url)], [raise_for_status()] and
    [soup.find_all('a', class_='trend-link')]: the links of the page, or a
    failure. *)
Variable fetch_trend_links : str -> result (list trend_link).

Variable textblob_polarity : str -> result float.
Variable SCRAPE_VERSION_ID : str.

Definition is_indian_text (text : str) : bool :=
  if existsb is_devanagari text then true
  else if any_in indian_terms (lower R text) then true
  else false.

Fixpoint lstrip_blanks (s : str) : str :=
  match s with
  | [] => []
  | c :: s' => if isspace R c then lstrip_blanks s' else s
  end.

(** [s.strip()] *)
Definition str_strip (s : str) : str := rev (lstrip_blanks (rev (lstrip_blanks s))).

(** The count shown beside a link, ["N/A"] when there is none. *)
Definition tweet_count_of (link : trend_link) : str :=
  match parent_li link with
  | Some (Some span_text) =>
      match str_strip span_text with
      | [] => lit "N/A"
      | stripped => stripped
      end
  | _ => lit "N/A"
  end.

(** The loop over the links of one page: [trending_topics] is the list
    built so far and [seen_topics] the set of the texts kept so far. *)
Fixpoint collect_topics (trend_links : list trend_link)
    (trending_topics : list RawTrend) (seen_topics : list str) : list RawTrend :=
  match trend_links with
  | [] => trending_topics
  | link :: rest =>
      let trend_text := str_strip (link_text link) in
      if existsb (Str.eqb trend_text) seen_topics
      then collect_topics rest trending_topics seen_topics
      else if startswith (lit "#") trend_text
              && (is_indian_text trend_text
                  || (Z.of_nat (List.length trending_topics) <? 5))
      then
        let trending_topics' :=
          trending_topics
            ++ [{| topic := trend_text;
                   count := tweet_count_of link;
                   twitter_link := generate_twitter_search_link trend_text |}] in
        if 9 <=? Z.of_nat (List.length trending_topics')
        then trending_topics'
        else collect_topics rest trending_topics' (trend_text :: seen_topics)
      else collect_topics rest trending_topics seen_topics
  end.

(** The loop over the addresses: a failure or a page without links passes
    to the next address; the first page with links decides. *)
Fixpoint try_urls (urls : list str) : list RawTrend :=
  match urls with
  | [] => []
  | url :: rest =>
      match fetch_trend_links url with
      | Raise _ => try_urls rest
      | Ok [] => try_urls rest
      | Ok trend_links => collect_topics trend_links [] []
      end
  end.

Definition get_trending_topics : list RawTrend := try_urls urls_to_try.

(** The requests of one run. *)
Definition main : list store_op :=
  let trending_topics := get_trending_topics in
  match trending_topics with
  | [] => []
  | _ => insert_fresh_data_only R textblob_polarity SCRAPE_VERSION_ID trending_topics
  end.

End Extractor.

(** ** Further definitions used in the statements *)

(** [sub] is [l] with some elements left out. *)
Inductive subsequence {A : Type} : list A -> list A -> Prop :=
| subsequence_nil : subsequence [] []
| subsequence_skip (x : A) (sub l : list A) :
    subsequence sub l -> subsequence sub (x :: l)
| subsequence_keep (x : A) (sub l : list A) :
    subsequence sub l -> subsequence (x :: sub) (x :: l).

(** The ASCII text of a sequence of digit values. *)
Definition digit_chars (ds : list Z) : str := map (fun d => 48 + d) ds.

Definition is_comma_or_digit (c : codepoint) : bool := (c =? 44) || is_ascii_digit c.

Definition all_digits (s : str) : Prop := Forall (fun c => is_ascii_digit c = true) s.

(** The digit values spelt by the digits of a text. *)
Definition digits_of (s : str) : list Z :=
  map (fun c => c - 48) (filter is_ascii_digit s).

Definition bool_to_Z (b : bool) : Z := if b then 1 else 0.

(** The bonuses of a topic, in halves: 3 for an urgency keyword, 2 for a
    locale keyword, 1 for more than 15 characters, 1 for a marker. *)
Definition topic_bonus_halves (R : runtime) (topic : str) : Z :=
  3 * bool_to_Z (any_in trending_keywords (lower R topic))
  + 2 * bool_to_Z (any_in indian_keywords (lower R topic))
  + bool_to_Z (15 <? Z.of_nat (List.length topic))
  + bool_to_Z (any_in marker_substrings topic).

(** The inner [try] of the scorer is entered, and what it runs fails with
    [e]. *)
Definition count_reading_fails (R : runtime) (topic_data : dict value) (e : exn) :
    Prop :=
  let count_str := get topic_data (lit "count") (VStr (lit "N/A")) in
  negb (eq_str count_str (lit "N/A")) && truthy count_str = true
  /\ add_count R (of_ratio 10 10) count_str = Raise e.

(** The entry the extractor makes of a link it keeps. *)
Definition topic_of_link (R : runtime) (link : trend_link) : RawTrend :=
  {| topic := str_strip R (link_text link);
     count := tweet_count_of R link;
     twitter_link := generate_twitter_search_link (str_strip R (link_text link)) |}.

(** A page on which no address yields a link: a failure or no link at
    all. *)
Definition yields_no_link (fetched : result (list trend_link)) : Prop :=
  match fetched with
  | Ok (_ :: _) => False
  | _ => True
  end.

(** A page of six links, and a network on which the first address fails,
    the second serves that page and the third serves nothing. *)
Definition example_page : list trend_link :=
  [ {| link_text := lit " #Cricket "; parent_li := Some (Some (lit " 25K ")) |};
    {| link_text := lit "News"; parent_li := None |};
    {| link_text := lit "#Cricket"; parent_li := Some (Some (lit "1")) |};
    {| link_text := lit "#DelhiRains"; parent_li := Some None |};
    {| link_text := lit "#a"; parent_li := Some (Some (lit "  ")) |};
    {| link_text := lit "#MumbaiLocal"; parent_li := Some (Some (lit "1,234")) |} ].

Definition example_fetch (url : str) : result (list trend_link) :=
  if Str.eqb url (lit "https://trends24.in/india/") then Raise ExternalError
  else if Str.eqb url (lit "http://trends24.in/india/") then Ok example_page
  else Ok [].

(** A link with a text and the text of its count span. *)
Definition link_with_count (text span_text : str) : trend_link :=
  {| link_text := text; parent_li := Some (Some span_text) |}.

(* ================================================================== *)
(** * Facts about rounding *)
(* ================================================================== *)

Ltac conjuncts := repeat match goal with |- _ /\ _ => split end.

Module Float64Facts.
Import Float64.

Lemma rne_bounds (p q : Z) : 0 < q -> p / q <= rne p q <= p / q + 1.
Proof.
  intros Hq. unfold rne.
  destruct (2 * (p mod q) ?= q); [destruct (Z.even (p / q))| |]; lia.
Qed.

Lemma rne_mono (p1 p2 q : Z) : 0 < q -> p1 <= p2 -> rne p1 q <= rne p2 q.
Proof.
  intros Hq Hp.
  assert (Hf : p1 / q <= p2 / q) by (apply Z.div_le_mono; lia).
  destruct (Z.eq_dec (p1 / q) (p2 / q)) as [E | N].
  - assert (Hr : p1 mod q <= p2 mod q).
    { rewrite (Z.mod_eq p1 q), (Z.mod_eq p2 q) by lia. rewrite E. lia. }
    unfold rne. rewrite E.
    destruct (Z.compare_spec (2 * (p1 mod q)) q);
      destruct (Z.compare_spec (2 * (p2 mod q)) q);
      destruct (Z.even (p2 / q)); lia.
  - pose proof (rne_bounds p1 q Hq). pose proof (rne_bounds p2 q Hq). lia.
Qed.

Lemma rne_exact (n q : Z) : 0 < q -> rne (n * q) q = n.
Proof.
  intros Hq. unfold rne.
  rewrite Z.div_mul, Z.mod_mul by lia.
  destruct (Z.compare_spec (2 * 0) q); lia.
Qed.

Lemma rne_le_bound (p q n : Z) : 0 < q -> p <= n * q -> rne p q <= n.
Proof.
  intros Hq H. rewrite <- (rne_exact n q Hq). now apply rne_mono.
Qed.

Lemma rne_ge_bound (p q n : Z) : 0 < q -> n * q <= p -> n <= rne p q.
Proof.
  intros Hq H. rewrite <- (rne_exact n q Hq). now apply rne_mono.
Qed.

Lemma below_pow2 (v e : Z) : 0 <= v -> 0 <= e -> Z.log2 v < e -> v < 2 ^ e.
Proof.
  intros Hv He Hl.
  destruct (Z.eq_dec v 0) as [-> | Hn]; [apply Z.pow_pos_nonneg; lia|].
  apply Z.log2_lt_pow2; lia.
Qed.

Lemma above_pow2 (v e : Z) : 0 < v -> 0 <= e -> e <= Z.log2 v -> 2 ^ e <= v.
Proof.
  intros Hv He Hl. apply Z.log2_le_pow2; lia.
Qed.

(** A value in the binade of spacing [2^k] rounds into
    [[2^(52+k), 2^(53+k)]]. *)
Lemma round_units_binade (p q : Z) :
  0 < q -> 0 <= p -> 0 < Z.log2 (p / q) - 52 ->
  let k := Z.log2 (p / q) - 52 in
  2 ^ (52 + k) <= round_units p q <= 2 ^ (53 + k).
Proof.
  intros Hq Hp Hk k. unfold round_units. fold k.
  destruct (Z.leb_spec k 0) as [L | L]; [lia|].
  assert (Hv : 0 < p / q).
  { destruct (Z.eq_dec (p / q) 0) as [E | N].
    - rewrite E in Hk. simpl in Hk. lia.
    - pose proof (Z.div_pos p q Hp Hq). lia. }
  assert (H2k : 0 < 2 ^ k) by (apply Z.pow_pos_nonneg; lia).
  assert (Hlo : 2 ^ (52 + k) <= p / q) by (apply above_pow2; lia).
  assert (Hhi : p / q < 2 ^ (53 + k)) by (apply below_pow2; lia).
  assert (Hplo : 2 ^ (52 + k) * q <= p).
  { pose proof (Z.mul_div_le p q Hq). nia. }
  assert (Hphi : p < 2 ^ (53 + k) * q).
  { pose proof (Z.mod_pos_bound p q Hq). rewrite (Z.div_mod p q) at 1 by lia. nia. }
  rewrite !Z.pow_add_r in * by lia.
  split.
  - apply Z.mul_le_mono_nonneg_r; [lia|]. apply rne_ge_bound; nia.
  - apply Z.mul_le_mono_nonneg_r; [lia|]. apply rne_le_bound; nia.
Qed.

Lemma round_units_small (p q : Z) :
  0 < q -> 0 <= p -> Z.log2 (p / q) - 52 <= 0 ->
  round_units p q = rne p q /\ 0 <= rne p q <= 2 ^ 53.
Proof.
  intros Hq Hp Hk. unfold round_units.
  destruct (Z.leb_spec (Z.log2 (p / q) - 52) 0) as [L | L]; [|lia].
  split; [reflexivity|].
  assert (H0 : 0 <= p / q) by (apply Z.div_pos; lia).
  assert (Hhi : p / q < 2 ^ 53) by (apply below_pow2; lia).
  split.
  - apply rne_ge_bound; lia.
  - apply rne_le_bound; [lia|].
    pose proof (Z.mod_pos_bound p q Hq). rewrite (Z.div_mod p q) at 1 by lia. nia.
Qed.

Lemma round_units_mono (p1 p2 q : Z) :
  0 < q -> 0 <= p1 -> p1 <= p2 -> round_units p1 q <= round_units p2 q.
Proof.
  intros Hq Hp1 Hp.
  assert (Hv : p1 / q <= p2 / q) by (apply Z.div_le_mono; lia).
  assert (Hv0 : 0 <= p1 / q) by (apply Z.div_pos; lia).
  pose proof (Z.log2_le_mono _ _ Hv) as Hl.
  destruct (Z_le_gt_dec (Z.log2 (p1 / q) - 52) 0) as [K1 | K1];
    destruct (Z_le_gt_dec (Z.log2 (p2 / q) - 52) 0) as [K2 | K2].
  - destruct (round_units_small p1 q) as [-> _]; try lia.
    destruct (round_units_small p2 q) as [-> _]; try lia.
    now apply rne_mono.
  - destruct (round_units_small p1 q) as [-> [_ H1]]; try lia.
    pose proof (round_units_binade p2 q Hq ltac:(lia) ltac:(lia)) as [H2 _].
    cbv zeta in H2.
    assert (2 ^ 53 <= 2 ^ (52 + (Z.log2 (p2 / q) - 52)))
      by (apply Z.pow_le_mono_r; lia).
    lia.
  - lia.
  - destruct (Z.eq_dec (Z.log2 (p1 / q)) (Z.log2 (p2 / q))) as [E | N].
    + unfold round_units. rewrite E.
      destruct (Z.leb_spec (Z.log2 (p2 / q) - 52) 0); [lia|].
      assert (0 < 2 ^ (Z.log2 (p2 / q) - 52)) by (apply Z.pow_pos_nonneg; lia).
      apply Z.mul_le_mono_nonneg_r; [lia|]. apply rne_mono; nia.
    + pose proof (round_units_binade p1 q Hq Hp1 ltac:(lia)) as [_ H1].
      pose proof (round_units_binade p2 q Hq ltac:(lia) ltac:(lia)) as [H2 _].
      cbv zeta in H1, H2.
      assert (2 ^ (53 + (Z.log2 (p1 / q) - 52)) <= 2 ^ (52 + (Z.log2 (p2 / q) - 52)))
        by (apply Z.pow_le_mono_r; lia).
      lia.
Qed.

Lemma round_units_nonneg (p q : Z) : 0 < q -> 0 <= p -> 0 <= round_units p q.
Proof.
  intros Hq Hp.
  destruct (Z_le_gt_dec (Z.log2 (p / q) - 52) 0) as [K | K].
  - destruct (round_units_small p q) as [-> [H _]]; lia.
  - pose proof (round_units_binade p q Hq Hp ltac:(lia)) as [H _]. cbv zeta in H.
    assert (0 < 2 ^ (52 + (Z.log2 (p / q) - 52))) by (apply Z.pow_pos_nonneg; lia).
    lia.
Qed.

(** [rne p q] is an integer nearest to [p / q]. *)
Lemma rne_nearest (p q : Z) : 0 < q -> 2 * Z.abs (rne p q * q - p) <= q.
Proof.
  intros Hq. unfold rne.
  pose proof (Z.div_mod p q ltac:(lia)) as E.
  pose proof (Z.mod_pos_bound p q Hq) as B.
  destruct (Z.compare_spec (2 * (p mod q)) q) as [C | C | C];
    [destruct (Z.even (p / q))| |]; nia.
Qed.

(** On a tie it is the even one. *)
Lemma rne_tie_even (p q : Z) :
  0 < q -> 2 * (p mod q) = q -> Z.even (rne p q) = true.
Proof.
  intros Hq T. unfold rne. rewrite T, Z.compare_refl.
  destruct (Z.even (p / q)) eqn:E; [exact E|].
  rewrite Z.even_add, E. reflexivity.
Qed.

(** The rounding of a non-negative rational is a multiple of the spacing
    [2^k] of its binade, has at most 53 significant bits there, and is
    within half a spacing of the rational. *)
Lemma round_units_nearest (p q : Z) :
  0 < q -> 0 <= p ->
  let k := Z.max 0 (Z.log2 (p / q) - 52) in
  exists m, round_units p q = m * 2 ^ k /\ 0 <= m <= 2 ^ 53
            /\ 2 * Z.abs (round_units p q * q - p) <= q * 2 ^ k.
Proof.
  intros Hq Hp k.
  destruct (Z_le_gt_dec (Z.log2 (p / q) - 52) 0) as [K | K].
  - destruct (round_units_small p q Hq Hp K) as [E B].
    replace k with 0 by (unfold k; lia). exists (rne p q).
    rewrite E. change (2 ^ 0) with 1. rewrite !Z.mul_1_r.
    split; [reflexivity|]. split; [exact B|]. now apply rne_nearest.
  - pose proof (round_units_binade p q Hq Hp ltac:(lia)) as B. cbv zeta in B.
    replace k with (Z.log2 (p / q) - 52) by (unfold k; lia).
    set (j := Z.log2 (p / q) - 52) in *.
    assert (Hj : 0 < 2 ^ j) by (apply Z.pow_pos_nonneg; lia).
    unfold round_units in *. fold j in B |- *.
    destruct (Z.leb_spec j 0); [lia|].
    exists (rne p (q * 2 ^ j)). split; [reflexivity|].
    rewrite !Z.pow_add_r in B by lia.
    split; [nia|].
    pose proof (rne_nearest p (q * 2 ^ j) ltac:(nia)) as N.
    replace (rne p (q * 2 ^ j) * 2 ^ j * q - p)
      with (rne p (q * 2 ^ j) * (q * 2 ^ j) - p) by ring.
    exact N.
Qed.

(** The rounding of a non-negative rational is a non-negative float. *)
Lemma round64_nonneg (p q : Z) :
  0 < q -> 0 <= p ->
  round64 p q = Inf false \/ exists u, round64 p q = Finite u /\ 0 <= u.
Proof.
  intros Hq Hp. unfold round64. rewrite Z.abs_eq by lia.
  pose proof (round_units_nonneg p q Hq Hp) as Hn.
  replace (p <? 0) with false by (symmetry; apply Z.ltb_ge; lia).
  destruct (overflow_threshold <=? round_units p q); [now left|right].
  eexists; split; [reflexivity|].
  assert (0 <= Z.sgn p) by (apply Z.sgn_nonneg; lia). nia.
Qed.

Lemma round64_zero (q : Z) : 0 < q -> round64 0 q = Finite 0.
Proof.
  intros Hq. unfold round64, round_units. simpl Z.abs.
  rewrite Z.div_0_l by lia. simpl Z.log2. simpl (0 - 52 <=? 0).
  replace (rne 0 q) with 0 by (symmetry; apply (rne_exact 0 q Hq)).
  reflexivity.
Qed.

(** The rounding of a non-positive rational is a non-positive float. *)
Lemma round64_nonpos (p q : Z) :
  0 < q -> p <= 0 ->
  round64 p q = Inf true \/ exists u, round64 p q = Finite u /\ u <= 0.
Proof.
  intros Hq Hp.
  destruct (Z.eq_dec p 0) as [-> | N].
  - right. exists 0. rewrite round64_zero by lia. split; [reflexivity|lia].
  - unfold round64.
    pose proof (round_units_nonneg (Z.abs p) q Hq ltac:(lia)) as Hn.
    replace (p <? 0) with true by (symmetry; apply Z.ltb_lt; lia).
    destruct (overflow_threshold <=? round_units (Z.abs p) q); [now left|right].
    eexists; split; [reflexivity|].
    rewrite Z.sgn_neg by lia. lia.
Qed.

(** Rounding is monotone on the non-negative rationals of one denominator. *)
Lemma round64_mono (p1 p2 q : Z) :
  0 < q -> 0 <= p1 -> p1 <= p2 -> leb (round64 p1 q) (round64 p2 q) = true.
Proof.
  intros Hq Hp1 Hp.
  pose proof (round_units_mono p1 p2 q Hq Hp1 Hp) as Hm.
  pose proof (round_units_nonneg p1 q Hq Hp1) as Hn.
  unfold round64. rewrite !Z.abs_eq by lia.
  replace (p1 <? 0) with false by (symmetry; apply Z.ltb_ge; lia).
  replace (p2 <? 0) with false by (symmetry; apply Z.ltb_ge; lia).
  destruct (Z.leb_spec overflow_threshold (round_units p1 q));
    destruct (Z.leb_spec overflow_threshold (round_units p2 q)); simpl; try reflexivity.
  - lia.
  - apply Z.leb_le.
    destruct (Z.eq_dec p1 0) as [-> | N1].
    + rewrite Z.sgn_0 by lia.
      assert (0 <= Z.sgn p2) by (apply Z.sgn_nonneg; lia).
      pose proof (round_units_nonneg p2 q Hq ltac:(lia)). nia.
    + rewrite !Z.sgn_pos by lia. lia.
Qed.

(** ** Intervals of finite floats *)

Lemma half_scale_pos : 0 < half_scale.
Proof. reflexivity. Qed.

Lemma unit_scale_halves : unit_scale = 2 * half_scale.
Proof. reflexivity. Qed.

Lemma within_weaken (lo hi lo' hi' : Z) (x : float) :
  within lo hi x -> lo' <= lo -> hi <= hi' -> within lo' hi' x.
Proof.
  intros [u [-> H]] Hl Hh. exists u. split; [reflexivity|].
  pose proof half_scale_pos. nia.
Qed.

(** Between two rationals that round to [l] and [h] half units, a rational
    rounds to a float between [l] and [h] half units. *)
Lemma round64_within (p q p1 p2 l h : Z) :
  0 < q -> 0 <= p1 -> p1 <= p -> p <= p2 ->
  round64 p1 q = Finite (l * half_scale) ->
  round64 p2 q = Finite (h * half_scale) ->
  within l h (round64 p q).
Proof.
  intros Hq H1 Hlo Hhi El Eh.
  pose proof (round64_mono p1 p q Hq H1 Hlo) as M1.
  pose proof (round64_mono p p2 q Hq ltac:(lia) Hhi) as M2.
  rewrite El in M1. rewrite Eh in M2.
  destruct (round64 p q) as [u | s | ]; simpl in M1, M2; try discriminate.
  - exists u. split; [reflexivity|]. apply Z.leb_le in M1, M2. lia.
  - destruct s; discriminate.
Qed.

Lemma add_within (a1 a2 b1 b2 l h : Z) (x y : float) :
  within a1 a2 x -> within b1 b2 y -> 0 <= a1 + b1 ->
  round64 ((a1 + b1) * half_scale) 1 = Finite (l * half_scale) ->
  round64 ((a2 + b2) * half_scale) 1 = Finite (h * half_scale) ->
  within l h (add x y).
Proof.
  intros [u [-> Hu]] [v [-> Hv]] H0 El Eh. simpl.
  pose proof half_scale_pos.
  apply (round64_within (u + v) 1 ((a1 + b1) * half_scale) ((a2 + b2) * half_scale));
    try assumption; nia.
Qed.

Lemma round2_within (lo hi : Z) (x : float) :
  within lo hi x -> 0 <= lo ->
  of_ratio (lo * 50) 100 = Finite (lo * half_scale) ->
  of_ratio (hi * 50) 100 = Finite (hi * half_scale) ->
  within lo hi (round2 x).
Proof.
  intros [u [-> Hu]] H0 El Eh. simpl.
  pose proof half_scale_pos as Hh.
  assert (Hs : 0 < unit_scale) by reflexivity.
  assert (Hn : lo * 50 <= rne (u * 100) unit_scale <= hi * 50).
  { split; [apply rne_ge_bound | apply rne_le_bound]; try lia;
      rewrite unit_scale_halves; nia. }
  unfold of_ratio in *.
  apply (round64_within _ 100 (lo * 50 * unit_scale) (hi * 50 * unit_scale));
    try assumption; nia.
Qed.

(** ** Agreement with [SpecFloat] on the scorer's and the parser's
       arithmetic *)

Example count_terms_agree_with_ieee754 :
  forallb count_term_agrees sample_counts = true.
Proof. vm_compute. reflexivity. Qed.

Example literals_agree_with_ieee754 :
  ratio_agrees 21 10 && ratio_agrees 5 100 && ratio_agrees (-5) 100
  && ratio_agrees 95 10
  && mul_agrees (of_ratio 21 10) (of_int 1000000)
  && mul_agrees (of_ratio 435 100) (of_int 1000)
  && mul_agrees (of_ratio (-5) 1) (of_int 1000)
  && add_agrees (of_ratio 1 10) (of_ratio 2 10)
  && spec_eqb (to_spec (of_int 1)) (SpecFloat.SFone 53 1024) = true.
Proof. vm_compute. reflexivity. Qed.

End Float64Facts.

(* ================================================================== *)
(** * The engagement score *)
(* ================================================================== *)

Module Score.
Import Float64Facts.

Local Opaque unit_scale half_scale.

Lemma float_1_0 : of_ratio 10 10 = Finite (2 * half_scale).
Proof. vm_compute. reflexivity. Qed.

Lemma float_of_int_constants :
  of_int 0 = Finite (0 * half_scale) /\ of_int 1 = Finite (2 * half_scale)
  /\ of_int 5 = Finite (10 * half_scale) /\ of_int 10 = Finite (20 * half_scale).
Proof. vm_compute. repeat split; reflexivity. Qed.

Lemma float_bonus_constants :
  of_ratio 15 10 = Finite (3 * half_scale) /\ of_ratio 5 10 = Finite (1 * half_scale)
  /\ of_ratio 95 10 = Finite (19 * half_scale).
Proof. vm_compute. repeat split; reflexivity. Qed.

(** Whole numbers of half units up to 19 are floats. *)
Lemma halves_exact (k : Z) :
  0 <= k <= 19 -> round64 (k * half_scale) 1 = Finite (k * half_scale).
Proof.
  intros H.
  assert (C : k = 0 \/ k = 1 \/ k = 2 \/ k = 3 \/ k = 4 \/ k = 5 \/ k = 6 \/ k = 7
              \/ k = 8 \/ k = 9 \/ k = 10 \/ k = 11 \/ k = 12 \/ k = 13 \/ k = 14
              \/ k = 15 \/ k = 16 \/ k = 17 \/ k = 18 \/ k = 19) by lia.
  repeat (destruct C as [-> | C]; [vm_compute; reflexivity|]).
  subst k. vm_compute. reflexivity.
Qed.

(** So are the two-decimal numbers [1.00] and [9.50]. *)
Lemma hundredths_exact :
  of_ratio (2 * 50) 100 = Finite (2 * half_scale)
  /\ of_ratio (19 * 50) 100 = Finite (19 * half_scale).
Proof. vm_compute. split; reflexivity. Qed.

(** [min(5, max(0, x))] lies between 0 and 5, whatever the float [x]. *)
Lemma capped_term_within (x : float) :
  within 0 10 (to_float (min_int 5 (max_int 0 (NFloat x)))).
Proof.
  destruct float_of_int_constants as (E0 & _ & E5 & _).
  pose proof half_scale_pos as Hh. pose proof unit_scale_halves as Hu.
  assert (W0 : within 0 10 (of_int 0)) by (rewrite E0; eexists; split; [reflexivity|lia]).
  assert (W5 : within 0 10 (of_int 5)) by (rewrite E5; eexists; split; [reflexivity|lia]).
  destruct x as [a | s | ]; unfold max_int, min_int, gtb_int, ltb_int.
  - destruct (Z.ltb_spec (0 * unit_scale) a); [|exact W0].
    destruct (Z.ltb_spec a (5 * unit_scale)); [|exact W5].
    exists a. split; [reflexivity|lia].
  - destruct s; simpl negb; cbv iota; [exact W0|].
    cbv iota. exact W5.
  - exact W0.
Qed.

Section WithRuntime.
Variable R : runtime.

(** After the count has been read, the score is between 1 and 6. *)
Lemma add_count_within (count_str : value) :
  within 2 12
    (try_except (add_count R (of_ratio 10 10) count_str) (fun _ => of_ratio 10 10)).
Proof.
  assert (W1 : within 2 12 (of_ratio 10 10)).
  { rewrite float_1_0. pose proof half_scale_pos. eexists; split; [reflexivity|lia]. }
  unfold add_count.
  destruct (str_method count_str) as [s | e]; [|exact W1].
  cbn [bind]. destruct (scorer_digits R s) as [| c cs]; [exact W1|].
  destruct (int_of_digits R (c :: cs)) as [tweet_count | e]; [|exact W1].
  cbn [bind]. destruct (0 <? tweet_count); [|exact W1].
  destruct (truediv tweet_count 10000) as [q | e]; [|exact W1].
  cbn [bind try_except].
  apply (add_within 2 2 0 10).
  - rewrite float_1_0. pose proof half_scale_pos. eexists; split; [reflexivity|lia].
  - apply capped_term_within.
  - lia.
  - apply halves_exact; lia.
  - apply halves_exact; lia.
Qed.

Lemma bonus_within (hi b : Z) (flag : bool) (x : float) :
  within 2 hi x -> 0 <= b -> 2 <= hi -> hi + b <= 19 ->
  within 2 (hi + b) (if flag then add x (Finite (b * half_scale)) else x).
Proof.
  intros W Hb Hhi Hs. destruct flag.
  - apply (within_weaken (2 + b) (hi + b)); try lia.
    apply (add_within 2 hi b b); try lia; try assumption.
    + eexists; split; [reflexivity|lia].
    + apply halves_exact; lia.
    + apply halves_exact; lia.
  - apply (within_weaken 2 hi); try lia. assumption.
Qed.

(** The clamp of a rounded score between 1 and 9.5. *)
Lemma clamp_within (x : float) :
  within 2 19 x ->
  let y := to_float (max_int 1 (min_int 10 (NFloat (round2 x)))) in
  within 2 19 y /\ exists n, 100 <= n <= 950 /\ y = of_ratio n 100.
Proof.
  intros W y.
  destruct float_of_int_constants as (_ & E1 & _ & _).
  destruct hundredths_exact as [H100 H950].
  pose proof half_scale_pos as Hh. pose proof unit_scale_halves as Hu.
  assert (Wr : within 2 19 (round2 x)).
  { apply round2_within; try assumption; lia. }
  assert (Hn : exists n, 100 <= n <= 950 /\ round2 x = of_ratio n 100).
  { destruct W as [u [-> Hu']]. simpl round2.
    exists (rne (u * 100) unit_scale). split; [|reflexivity].
    assert (0 < unit_scale) by lia.
    split; [apply rne_ge_bound | apply rne_le_bound]; lia. }
  destruct Wr as [r [Er Hr]]. subst y. rewrite Er in *.
  unfold min_int, max_int, ltb_int, gtb_int.
  destruct (Z.ltb_spec r (10 * unit_scale)); [|lia].
  destruct (Z.ltb_spec (1 * unit_scale) r).
  - split; [exists r; split; [reflexivity|lia] | exact Hn].
  - unfold to_float. rewrite E1. split.
    + eexists; split; [reflexivity|lia].
    + exists 100. split; [lia|]. symmetry. exact H100.
Qed.

Lemma engagement_score_body_within (topic_data : dict value) (v : float) :
  engagement_score_body R topic_data = Ok v ->
  within 2 19 v /\ exists n, 100 <= n <= 950 /\ v = of_ratio n 100.
Proof.
  unfold engagement_score_body.
  set (count_str := get topic_data (lit "count") (VStr (lit "N/A"))).
  set (s1 := if negb (eq_str count_str (lit "N/A")) && truthy count_str
             then try_except (add_count R (of_ratio 10 10) count_str)
                             (fun _ => of_ratio 10 10)
             else of_ratio 10 10).
  assert (W1 : within 2 12 s1).
  { subst s1. destruct (negb (eq_str count_str (lit "N/A")) && truthy count_str).
    - apply add_count_within.
    - rewrite float_1_0. pose proof half_scale_pos. eexists; split; [reflexivity|lia]. }
  clearbody s1. clear count_str.
  destruct (get topic_data (lit "topic") (VStr [])) as [ | n | t]; try discriminate.
  cbn [str_method bind len].
  destruct float_bonus_constants as (E15 & E05 & _).
  rewrite float_1_0, E15, E05.
  intros H. injection H as <-.
  apply clamp_within.
  apply (bonus_within 18 1); try lia.
  apply (bonus_within 17 1); try lia.
  apply (bonus_within 15 2); try lia.
  apply (bonus_within 12 3); try lia.
  exact W1.
Qed.

Lemma calculate_engagement_score_within (topic_data : dict value) :
  within 2 19 (calculate_engagement_score R topic_data)
  /\ exists n, 100 <= n <= 950 /\ calculate_engagement_score R topic_data = of_ratio n 100.
Proof.
  unfold calculate_engagement_score.
  destruct (engagement_score_body R topic_data) as [v | e] eqn:E; cbn [try_except].
  - now apply engagement_score_body_within with (topic_data := topic_data).
  - destruct hundredths_exact as [H100 _]. rewrite float_1_0.
    pose proof half_scale_pos. split.
    + eexists; split; [reflexivity|lia].
    + exists 100. split; [lia|]. symmetry. exact H100.
Qed.

(** The body of the scorer fails on a topic that is not a string, and
    only then. *)
Lemma engagement_score_body_succeeds (topic_data : dict value) (s : str) :
  get topic_data (lit "topic") (VStr []) = VStr s ->
  exists v, engagement_score_body R topic_data = Ok v.
Proof.
  intros E. unfold engagement_score_body. rewrite E.
  cbn [str_method bind len]. eexists. reflexivity.
Qed.

Lemma engagement_score_body_raises (topic_data : dict value) (e : exn) :
  engagement_score_body R topic_data = Raise e ->
  e = AttributeError /\ forall s, get topic_data (lit "topic") (VStr []) <> VStr s.
Proof.
  unfold engagement_score_body.
  destruct (get topic_data (lit "topic") (VStr [])) as [ | n | t];
    cbn [str_method bind len]; intros H; try discriminate;
    injection H as <-; split; try reflexivity; intros s; discriminate.
Qed.

Example engagement_score_of_empty_strings :
  calculate_engagement_score R (topic_and_count [] []) = of_int 1.
Proof. vm_compute. reflexivity. Qed.

End WithRuntime.
End Score.

(* ================================================================== *)
(** * The count parser *)
(* ================================================================== *)

Module Count.
Import Float64Facts.

Local Opaque unit_scale.

Lemma round64_is_nonneg (p q : Z) : 0 < q -> 0 <= p -> nonneg (round64 p q).
Proof.
  intros Hq Hp.
  destruct (round64_nonneg p q Hq Hp) as [-> | [u [-> Hu]]]; simpl; auto.
Qed.

Lemma mul_nonneg (x : float) (k : Z) :
  nonneg x -> 0 < k -> nonneg (mul x (Finite (k * unit_scale))).
Proof.
  assert (Hs : 0 < unit_scale) by reflexivity.
  intros Hx Hk. destruct x as [u | s | ]; simpl in *.
  - apply round64_is_nonneg; nia.
  - subst s.
    destruct (Z.eqb_spec (k * unit_scale) 0); [nia|].
    destruct (Z.ltb_spec (k * unit_scale) 0); [nia|]. reflexivity.
  - exact I.
Qed.

Lemma int_of_float_nonneg (x : float) (n : Z) :
  nonneg x -> int_of_float x = Ok n -> 0 <= n.
Proof.
  assert (Hs : 0 < unit_scale) by reflexivity.
  destruct x as [u | s | ]; simpl; intros Hx H; try discriminate.
  injection H as <-. unfold trunc. apply Z.quot_pos; lia.
Qed.

Lemma fold_digits_nonneg (ds : list Z) (acc : Z) :
  0 <= acc -> Forall is_digit_value ds ->
  0 <= fold_left (fun a d => 10 * a + d) ds acc.
Proof.
  revert acc. induction ds as [| d ds IH]; intros acc Ha Hd; cbn [fold_left]; [assumption|].
  inversion Hd as [| ? ? Hd1 Hd2]; subst. unfold is_digit_value in Hd1.
  apply IH; [lia|assumption].
Qed.

Lemma digits_value_nonneg (ds : list Z) :
  Forall is_digit_value ds -> 0 <= digits_value ds.
Proof. intros H. apply fold_digits_nonneg; [lia|assumption]. Qed.

Section WithRuntime.
Variable R : runtime.

Lemma decimal_range (c : codepoint) (d : Z) :
  decimal R c = Some d -> is_digit_value d.
Proof.
  unfold decimal, is_ascii_digit, is_digit_value.
  destruct (c <? 128).
  - destruct (Z.leb_spec 48 c); destruct (Z.leb_spec c 57); simpl; intros E;
      try discriminate. injection E as <-. lia.
  - destruct (uni_decimal R c) as [d' |]; [|discriminate].
    destruct (Z.leb_spec 0 d'); destruct (Z.leb_spec d' 9); simpl; intros E;
      try discriminate. injection E as <-. lia.
Qed.

Lemma decimals_range (s : str) (ds : list Z) :
  decimals R s = Some ds -> Forall is_digit_value ds.
Proof.
  revert ds. induction s as [| c s IH]; simpl; intros ds H.
  - injection H as <-. constructor.
  - destruct (decimal R c) as [d |] eqn:Ed; [|discriminate].
    destruct (decimals R s) as [ds' |]; [|discriminate].
    injection H as <-. constructor; [now apply decimal_range with c | now apply IH].
Qed.

Lemma int_of_digits_nonneg (s : str) (n : Z) :
  int_of_digits R s = Ok n -> 0 <= n.
Proof.
  unfold int_of_digits. destruct s as [| c s]; [discriminate|].
  destruct (decimals R (c :: s)) as [ds |] eqn:E; [|discriminate].
  destruct (_ && _); [discriminate|].
  intros H. injection H as <-.
  apply digits_value_nonneg. now apply decimals_range with (c :: s).
Qed.

(** *** [float] on some texts *)

Example float_of_str_examples :
  float_of_str R (lit "2.1") = Ok (of_ratio 21 10)
  /\ float_of_str R (lit "1E3") = Ok (of_int 1000)
  /\ float_of_str R (lit " 1_0 ") = Ok (of_int 10)
  /\ float_of_str R (lit ".5") = Ok (of_ratio 5 10)
  /\ float_of_str R (lit "1.") = Ok (of_int 1)
  /\ float_of_str R (lit "-5") = Ok (of_int (-5))
  /\ float_of_str R (lit "1E999") = Ok (Inf false)
  /\ float_of_str R (lit "-INF") = Ok (Inf true)
  /\ float_of_str R (lit "NAN") = Ok NaN
  /\ float_of_str R (lit "1_") = Raise ValueError
  /\ float_of_str R (lit ".") = Raise ValueError
  /\ float_of_str R (lit "1E") = Raise ValueError
  /\ float_of_str R (lit "0X10") = Raise ValueError
  /\ float_of_str R (lit "UNDER 10") = Raise ValueError
  /\ float_of_str R [] = Raise ValueError.
Proof. conjuncts; vm_compute; reflexivity. Qed.

(** *** No minus sign, no negative number *)

Lemma transform_minus (s : str) :
  In 45 (transform_decimal_and_space R s) -> In 45 s.
Proof.
  induction s as [| c s IH]; cbn [transform_decimal_and_space In]; [auto|].
  destruct (c <? 127).
  - cbn [In]. intros [E | E]; auto.
  - destruct (isspace R c).
    + cbn [In]. intros [E | E]; [discriminate | auto].
    + destruct (decimal R c) as [d |] eqn:Ed.
      * apply decimal_range in Ed. unfold is_digit_value in Ed.
        cbn [In]. intros [E | E]; [lia | auto].
      * cbn [In]. intros [E | []]. discriminate.
Qed.

Lemma to_ascii_minus (s : str) : In 45 (to_ascii R s) -> In 45 s.
Proof.
  unfold to_ascii. destruct (forallb (fun c => c <? 128) s); [auto | apply transform_minus].
Qed.

Lemma lstrip_incl (s : str) (c : codepoint) : In c (lstrip s) -> In c s.
Proof.
  induction s as [| d s IH]; simpl; [auto|].
  destruct (is_ascii_space d); simpl; auto.
Qed.

Lemma strip_incl (s : str) (c : codepoint) : In c (strip s) -> In c s.
Proof.
  unfold strip. intros H.
  apply in_rev, lstrip_incl, in_rev in H. now apply lstrip_incl.
Qed.

Lemma strip_underscores_incl (s b : str) (prev c : codepoint) :
  strip_underscores prev s = Some b -> In c b -> In c s.
Proof.
  revert prev b. induction s as [| d s IH]; simpl; intros prev b H Hc.
  - destruct (prev =? 95); [discriminate|]. injection H as <-. assumption.
  - destruct (d =? 95).
    + destruct (is_ascii_digit prev); [|discriminate]. right. eauto.
    + destruct ((prev =? 95) && negb (is_ascii_digit d)); [discriminate|].
      destruct (strip_underscores d s) as [b' |] eqn:E; [|discriminate].
      injection H as <-. destruct Hc as [-> | Hc]; [now left | right; eauto].
Qed.

Lemma parse_sign_minus (s t : str) : parse_sign s = (true, t) -> In 45 s.
Proof.
  destruct s as [| c s]; simpl; [discriminate|].
  destruct (Z.eqb_spec c 45); [subst; now left|].
  destruct (c =? 43); discriminate.
Qed.

Lemma span_digits_range (s : str) :
  Forall is_digit_value (fst (span_digits s)).
Proof.
  induction s as [| c s IH]; simpl; [constructor|].
  unfold is_ascii_digit.
  destruct (Z.leb_spec 48 c); destruct (Z.leb_spec c 57); simpl; try constructor.
  destruct (span_digits s) as [ds r]. simpl in *.
  constructor; [unfold is_digit_value; lia | assumption].
Qed.

Lemma parse_decimal_nonneg (s : str) (m e : Z) :
  parse_decimal s = Some (m, e) -> 0 <= m.
Proof.
  unfold parse_decimal.
  pose proof (span_digits_range s) as H1.
  destruct (span_digits s) as [ip r1]. simpl in H1.
  assert (H2 : forall fp r2,
             match r1 with
             | c :: r => if c =? 46 then span_digits r else ([], r1)
             | [] => ([], [])
             end = (fp, r2) -> Forall is_digit_value fp).
  { intros fp r2. destruct r1 as [| c r].
    - intros H. injection H as <- _. constructor.
    - destruct (c =? 46).
      + intros H. pose proof (span_digits_range r) as H3. rewrite H in H3. exact H3.
      + intros H. injection H as <- _. constructor. }
  destruct (match r1 with
            | c :: r => if c =? 46 then span_digits r else ([], r1)
            | [] => ([], [])
            end) as [fp r2].
  specialize (H2 fp r2 eq_refl).
  destruct (ip ++ fp) as [| d ds] eqn:E; [discriminate|].
  destruct (parse_exponent r2); [|discriminate].
  intros H. injection H as <- _. apply digits_value_nonneg.
  rewrite <- E. apply Forall_app. split; assumption.
Qed.

Lemma of_decimal_nonneg (m e : Z) : 0 <= m -> nonneg (of_decimal m e).
Proof.
  assert (Hs : 0 < unit_scale) by reflexivity.
  intros Hm. unfold of_decimal. destruct (Z.leb_spec 0 e).
  - apply round64_is_nonneg; [lia|].
    assert (0 < 10 ^ e) by (apply Z.pow_pos_nonneg; lia). nia.
  - apply round64_is_nonneg; [|nia]. apply Z.pow_pos_nonneg; lia.
Qed.

(** [float] of a text without a minus sign is not below zero. *)
Lemma float_of_str_nonneg (s : str) (x : float) :
  ~ In 45 s -> float_of_str R s = Ok x -> nonneg x.
Proof.
  intros Hm. unfold float_of_str.
  destruct (strip_underscores 0 (to_ascii R s)) as [a |] eqn:Ea; [|discriminate].
  destruct (strip a) as [| b0 b] eqn:Eb; [discriminate|].
  destruct (parse_sign (b0 :: b)) as [neg t] eqn:Es.
  assert (neg = false) as ->.
  { destruct neg; [|reflexivity]. exfalso. apply Hm.
    apply to_ascii_minus. apply (strip_underscores_incl _ a 0); [assumption|].
    apply strip_incl. rewrite Eb. now apply parse_sign_minus with t. }
  destruct (parse_decimal t) as [[m e] |] eqn:Ed.
  - intros H. injection H as <-. apply of_decimal_nonneg.
    now apply parse_decimal_nonneg with t e.
  - destruct (_ || _); [intros H; injection H as <-; reflexivity|].
    destruct (Str.eqb _ _); [intros H; injection H as <-; exact I | discriminate].
Qed.

Lemma contains_single (c : codepoint) (s : str) :
  contains [c] s = false -> ~ In c s.
Proof.
  induction s as [| d s IH]; simpl; [auto|].
  destruct (Z.eqb_spec c d); simpl; [discriminate|].
  intros H [Hd | Hin]; [congruence | now apply IH].
Qed.

Lemma in_replace (old c : codepoint) (new s : str) :
  In c (replace old new s) -> In c new \/ In c s.
Proof.
  unfold replace. intros H. apply in_flat_map in H. destruct H as [d [Hd Hc]].
  destruct (d =? old); [now left|]. destruct Hc as [-> | []]. now right.
Qed.

Lemma in_upper_replace (old c : codepoint) (s : str) :
  In c (upper R (replace old [] s)) -> In c (upper R s).
Proof.
  unfold upper. intros H. apply in_flat_map in H. destruct H as [d [Hd Hc]].
  apply in_flat_map. exists d. split; [|assumption].
  apply in_replace in Hd. destruct Hd as [[] | Hd]. assumption.
Qed.

Lemma scaled_count_nonneg (t : str) (k n : Z) :
  ~ In 45 t -> 0 < k -> of_int k = Finite (k * unit_scale) ->
  (x <- float_of_str R t ;; int_of_float (mul x (of_int k))) = Ok n -> 0 <= n.
Proof.
  intros Hm Hk Ek. destruct (float_of_str R t) as [x | e] eqn:Ex; [|discriminate].
  cbn [bind]. rewrite Ek. apply int_of_float_nonneg, mul_nonneg; [|assumption].
  now apply float_of_str_nonneg with t.
Qed.

Lemma post_count_body_nonneg (count_str : str) (n : Z) :
  contains (lit "-") (upper R count_str) = false ->
  post_count_body R count_str = Ok n -> 0 <= n.
Proof.
  intros Hm. apply contains_single in Hm.
  assert (Hc : forall old, ~ In 45 (replace old [] (upper R (replace (chr ",") [] count_str)))).
  { intros old H. apply in_replace in H. destruct H as [[] | H].
    apply Hm. now apply in_upper_replace with (chr ","). }
  unfold post_count_body.
  destruct (contains (lit "M") _).
  - apply scaled_count_nonneg; [apply Hc | lia | vm_compute; reflexivity].
  - destruct (contains (lit "K") _).
    + apply scaled_count_nonneg; [apply Hc | lia | vm_compute; reflexivity].
    + apply int_of_digits_nonneg.
Qed.

Lemma unsigned_count_nonneg (count_str : str) :
  contains (lit "-") (upper R count_str) = false -> 0 <= parse_post_count R count_str.
Proof.
  intros Hm. unfold parse_post_count.
  destruct (_ || _); [lia|].
  destruct (post_count_body R count_str) as [n | e] eqn:E; cbn [try_except]; [|lia].
  now apply post_count_body_nonneg with count_str.
Qed.

End WithRuntime.
End Count.

(* ================================================================== *)
(** * The content synthesizer, the sentiment labels and the pipeline *)
(* ================================================================== *)

Module Pipeline.

Lemma startswith_app (s t : str) : startswith s (s ++ t) = true.
Proof.
  induction s as [| c s IH]; cbn [startswith app]; [reflexivity|].
  now rewrite Z.eqb_refl, IH.
Qed.

Lemma contains_unfold (sub s : str) :
  contains sub s =
    startswith sub s || match s with [] => false | _ :: s' => contains sub s' end.
Proof. destruct s; reflexivity. Qed.

Lemma contains_infix (a s b : str) : contains s (a ++ s ++ b) = true.
Proof.
  induction a as [| c a IH].
  - cbn [app]. rewrite contains_unfold, startswith_app. reflexivity.
  - cbn [app contains]. rewrite IH. apply orb_true_r.
Qed.

Lemma first_match_split (pre post : dict str) (key content text : str) :
  contains key text = true ->
  (forall entry, In entry pre -> contains (fst entry) text = false) ->
  first_match (pre ++ (key, content) :: post) text = Some content.
Proof.
  intros Hk. induction pre as [| [k c] pre IH]; intros Hpre; cbn [app first_match].
  - now rewrite Hk.
  - pose proof (Hpre (k, c) (or_introl eq_refl)) as Hk0. cbn [fst] in Hk0.
    rewrite Hk0. apply IH.
    intros entry Hin. apply Hpre. now right.
Qed.

Lemma any_in_false (keywords : list str) (text key : str) :
  any_in keywords text = false -> In key keywords -> contains key text = false.
Proof.
  unfold any_in. intros H Hin.
  destruct (contains key text) eqn:E; [|reflexivity].
  assert (existsb (fun keyword => contains keyword text) keywords = true)
    by (apply existsb_exists; eauto).
  congruence.
Qed.

Lemma fold_append_map {A B : Type} (f : A -> B) (l : list A) (acc : list B) :
  fold_left (fun acc t => acc ++ [f t]) l acc = acc ++ map f l.
Proof.
  revert acc. induction l as [| a l IH]; intros acc; cbn [fold_left map].
  - now rewrite app_nil_r.
  - rewrite IH, <- app_assoc. reflexivity.
Qed.

Lemma labels_distinct :
  lit "Positive" <> lit "Negative" /\ lit "Positive" <> lit "Neutral"
  /\ lit "Negative" <> lit "Neutral".
Proof. repeat split; discriminate. Qed.

Lemma thresholds_ordered :
  of_ratio 5 100 = Finite (units_of (of_ratio 5 100))
  /\ of_ratio (-5) 100 = Finite (units_of (of_ratio (-5) 100))
  /\ (units_of (of_ratio (-5) 100) <? units_of (of_ratio 5 100)) = true.
Proof. vm_compute. split; [reflexivity | split; reflexivity]. Qed.

(** Below the lower threshold is not above the upper one. *)
Lemma below_is_not_above (p : float) :
  ltb p (of_ratio (-5) 100) = true -> ltb (of_ratio 5 100) p = false.
Proof.
  pose proof thresholds_ordered as H.
  destruct H as [Ea H]. destruct H as [Eb Hab]. revert Ea Eb Hab.
  generalize (units_of (of_ratio 5 100)), (units_of (of_ratio (-5) 100)).
  generalize (of_ratio 5 100), (of_ratio (-5) 100).
  intros x y a b -> -> Hab. apply Z.ltb_lt in Hab.
  destruct p as [u | s | ]; cbn [ltb]; try discriminate.
  - intros H. apply Z.ltb_lt in H. apply Z.ltb_ge. lia.
  - destruct s; [reflexivity | discriminate].
Qed.

(** The three labels, for any two thresholds of which the lower is not
    above the upper. *)
Lemma label_cases (hi lo p : float) :
  (ltb p lo = true -> ltb hi p = false) ->
  let label := if ltb hi p then lit "Positive"
               else if ltb p lo then lit "Negative" else lit "Neutral" in
  (label = lit "Positive" <-> ltb hi p = true)
  /\ (label = lit "Negative" <-> ltb p lo = true)
  /\ (label = lit "Neutral" <-> ltb hi p = false /\ ltb p lo = false).
Proof.
  intros Hx. cbv zeta.
  destruct labels_distinct as (D1 & D2 & D3).
  destruct (ltb hi p) eqn:Ea; destruct (ltb p lo) eqn:Eb.
  - specialize (Hx eq_refl). discriminate.
  - repeat split; intros; auto; try discriminate; try congruence.
    destruct H; discriminate.
  - repeat split; intros; auto; try discriminate; try congruence.
    destruct H; discriminate.
  - repeat split; intros; auto; try discriminate; try congruence.
Qed.

Section WithRuntime.
Variable R : runtime.
Variable textblob_polarity : str -> result float.
Variable SCRAPE_VERSION_ID : str.

Lemma content_is_first_match_or_default (hashtag : str) :
  let hashtag_clean := replace (chr "#") [] hashtag in
  get_hashtag_post_content R hashtag =
    match first_match (sample_contents hashtag_clean) (lower R hashtag_clean) with
    | Some content => content
    | None => default_content hashtag_clean
    end.
Proof.
  cbv zeta. unfold get_hashtag_post_content.
  destruct (first_match _ _); reflexivity.
Qed.

Lemma process_topic_fields (t : RawTrend) :
  let r := process_topic R textblob_polarity SCRAPE_VERSION_ID t in
  platform r = lit "Twitter" /\ topic_hashtag r = topic t /\ views r = 0
  /\ version_id r = SCRAPE_VERSION_ID
  /\ posts r = parse_post_count R (count t)
  /\ engagement_score r = calculate_engagement_score R (as_dict t)
  /\ (sentiment_label r, sentiment_polarity r)
     = analyze_hashtag_sentiment textblob_polarity (topic t)
  /\ md_raw_count (metadata r) = count t
  /\ md_twitter_link (metadata r) = twitter_link t
  /\ md_post_content (metadata r) = get_hashtag_post_content R (topic t).
Proof.
  cbv zeta. unfold process_topic.
  destruct (analyze_hashtag_sentiment textblob_polarity (topic t)) as [l p].
  repeat split.
Qed.

Lemma processed_topics_map (topics_list : list RawTrend) :
  processed_topics R textblob_polarity SCRAPE_VERSION_ID topics_list
  = map (process_topic R textblob_polarity SCRAPE_VERSION_ID) topics_list.
Proof. unfold processed_topics. now rewrite fold_append_map. Qed.

End WithRuntime.
End Pipeline.

(* ================================================================== *)
(** * The properties of the specification *)
(* ================================================================== *)

Import Float64Facts.

(** C1.  The specification has the scorer parse the raw count with the
    count parser.  The scorer reads the count on its own, spelling [K] and
    [M] out as zeros and keeping every digit, so it takes ["1.5K"] for
    15000 where [parse_post_count] gives 1500, ["2.1M"] for 21000000 where
    the parser gives 2100000, and a lower-case ["25k"] for 25 where the
    parser gives 25000.  On topic ["#x"] with count ["1.5K"] the score is
    4.0; with the count of the parser it would be 1.3. *)
Theorem scorer_count_diverges (R : runtime) :
  int_of_digits R (scorer_digits R (lit "1.5K")) = Ok 15000
  /\ parse_post_count R (lit "1.5K") = 1500
  /\ int_of_digits R (scorer_digits R (lit "2.1M")) = Ok 21000000
  /\ parse_post_count R (lit "2.1M") = 2100000
  /\ int_of_digits R (scorer_digits R (lit "25k")) = Ok 25
  /\ parse_post_count R (lit "25k") = 25000
  /\ calculate_engagement_score R (topic_and_count (lit "#x") (lit "1.5K")) = of_ratio 40 10
  /\ spec_scoreEngagement R (lit "#x") (lit "1.5K") = of_ratio 13 10
  /\ of_ratio 40 10 <> of_ratio 13 10.
Proof.
  conjuncts; try (vm_compute; reflexivity).
  vm_compute. discriminate.
Qed.

(** C2, as stated, fails: a count with a minus sign before a [K] or [M]
    multiple is parsed to a negative number. *)
Lemma negative_post_count :
  parse_post_count ascii_runtime (lit "-5K") = -5000
  /\ ~ (forall (R : runtime) (count_str : str), 0 <= parse_post_count R count_str).
Proof.
  assert (E : parse_post_count ascii_runtime (lit "-5K") = -5000)
    by (vm_compute; reflexivity).
  split; [exact E|].
  intros H. specialize (H ascii_runtime (lit "-5K")). rewrite E in H. lia.
Qed.

(** C2, amended.  A count whose upper-cased text holds no minus sign is
    parsed to a non-negative integer, and so is the [posts] field of the
    row built from it. *)
Theorem parse_post_count_nonneg (R : runtime) (count_str : str) :
  contains (lit "-") (upper R count_str) = false ->
  0 <= parse_post_count R count_str
  /\ forall textblob_polarity run_id topic link,
       0 <= posts (process_topic R textblob_polarity run_id
                     {| topic := topic; count := count_str; twitter_link := link |}).
Proof.
  intros H. pose proof (Count.unsigned_count_nonneg R count_str H) as Hn.
  split; [exact Hn|]. intros ext run_id tp link.
  destruct (Pipeline.process_topic_fields R ext run_id
              {| topic := tp; count := count_str; twitter_link := link |})
    as (_ & _ & _ & _ & Hp & _).
  rewrite Hp. exact Hn.
Qed.

Lemma parse_post_count_nonneg_witness :
  0 <= parse_post_count ascii_runtime (lit "2.1M")
  /\ 0 <= posts (process_topic ascii_runtime (fun _ => Raise ExternalError) (lit "run")
                   {| topic := lit "#x"; count := lit "2.1M"; twitter_link := [] |}).
Proof.
  assert (H : contains (lit "-") (upper ascii_runtime (lit "2.1M")) = false)
    by reflexivity.
  split.
  - exact (proj1 (parse_post_count_nonneg ascii_runtime (lit "2.1M") H)).
  - exact (proj2 (parse_post_count_nonneg ascii_runtime (lit "2.1M") H) _ _ _ _).
Defined.

(** C3.  The examples of the count parser: ["N/A"] and the empty text give
    0, ["25K"] gives 25000, ["2.1M"] gives 2100000, ["1,234"] gives 1234,
    and the malformed ["abc"] gives 0. *)
Theorem parse_post_count_examples (R : runtime) :
  parse_post_count R (lit "N/A") = 0
  /\ parse_post_count R [] = 0
  /\ parse_post_count R (lit "25K") = 25000
  /\ parse_post_count R (lit "2.1M") = 2100000
  /\ parse_post_count R (lit "1,234") = 1234
  /\ parse_post_count R (lit "abc") = 0
  /\ post_count_body R (lit "abc") = Raise ValueError.
Proof. conjuncts; vm_compute; reflexivity. Qed.

(** C4.  When the sentiment library returns a polarity, the analyzer
    returns that polarity with the label Positive exactly when it is above
    0.05, Negative exactly when it is below -0.05 and Neutral exactly when
    it is neither; the polarities 0.05 and -0.05 are Neutral. *)
Theorem sentiment_thresholds
    (textblob_polarity : str -> result float) (hashtag : str) (polarity : float) :
  textblob_polarity (sentiment_text hashtag) = Ok polarity ->
  let label := fst (analyze_hashtag_sentiment textblob_polarity hashtag) in
  snd (analyze_hashtag_sentiment textblob_polarity hashtag) = polarity
  /\ (label = lit "Positive" <-> ltb (of_ratio 5 100) polarity = true)
  /\ (label = lit "Negative" <-> ltb polarity (of_ratio (-5) 100) = true)
  /\ (label = lit "Neutral" <->
      ltb (of_ratio 5 100) polarity = false /\ ltb polarity (of_ratio (-5) 100) = false)
  /\ sentiment_of (of_ratio 5 100) = lit "Neutral"
  /\ sentiment_of (of_ratio (-5) 100) = lit "Neutral".
Proof.
  intros E. cbv zeta. unfold analyze_hashtag_sentiment.
  fold (sentiment_text hashtag). rewrite E. cbn [bind try_except fst snd].
  split; [reflexivity|].
  pose proof (Pipeline.label_cases (of_ratio 5 100) (of_ratio (-5) 100) polarity
                (Pipeline.below_is_not_above polarity)) as (H1 & H2 & H3).
  split; [exact H1|]. split; [exact H2|]. split; [exact H3|].
  split; vm_compute; reflexivity.
Qed.

Lemma sentiment_thresholds_witness :
  snd (analyze_hashtag_sentiment (fun _ => Ok (of_ratio 5 100)) (lit "#win")) = of_ratio 5 100
  /\ fst (analyze_hashtag_sentiment (fun _ => Ok (of_ratio 5 100)) (lit "#win")) = lit "Neutral".
Proof.
  pose proof (sentiment_thresholds (fun _ => Ok (of_ratio 5 100)) (lit "#win")
                (of_ratio 5 100) eq_refl) as H.
  cbv zeta in H. destruct H as (Hp & _ & _ & Hn & _).
  split; [exact Hp|]. apply Hn. split; vm_compute; reflexivity.
Defined.

(** C5.  Whatever the dictionary handed to the scorer -- any topic and any
    count, the empty ones included -- the score is between 1.0 and 10.0 and
    is the float of a whole number of hundredths. *)
Theorem engagement_score_range (R : runtime) (topic_data : dict value) :
  let score := calculate_engagement_score R topic_data in
  leb (of_int 1) score = true /\ leb score (of_int 10) = true
  /\ exists n, 100 <= n <= 1000 /\ score = of_ratio n 100.
Proof.
  cbv zeta.
  destruct (Score.calculate_engagement_score_within R topic_data)
    as [[u [Eu Hu]] [n [Hn En]]].
  destruct Score.float_of_int_constants as (_ & E1 & _ & E10).
  pose proof half_scale_pos as Hh.
  revert E1 E10. generalize (of_int 1), (of_int 10). intros one ten -> ->.
  rewrite Eu. cbn [leb]. repeat split.
  - apply Z.leb_le. lia.
  - apply Z.leb_le. lia.
  - exists n. split; [lia|]. rewrite <- Eu. exact En.
Qed.

(** C6.  The topic ["#BreakingNews2024"] with the count ["50K"] yields
    50000 posts and the score 8.5: the base 1.0, the count term capped at
    5, the urgency bonus 1.5, no locale bonus, the length bonus 0.5 (17
    characters) and the marker bonus 0.5. *)
Theorem breaking_news_scenario
    (R : runtime) (textblob_polarity : str -> result float) (run_id link : str) :
  let t := {| topic := lit "#BreakingNews2024"; count := lit "50K";
              twitter_link := link |} in
  let r := process_topic R textblob_polarity run_id t in
  posts r = 50000
  /\ engagement_score r = of_ratio 85 10
  /\ try_except (add_count R (of_int 1) (VStr (count t))) (fun _ => of_int 1)
     = add (of_int 1) (of_int 5)
  /\ any_in trending_keywords (lower R (topic t)) = true
  /\ any_in indian_keywords (lower R (topic t)) = false
  /\ Z.of_nat (List.length (topic t)) = 17
  /\ any_in marker_substrings (topic t) = true
  /\ of_ratio 85 10
     = add (add (add (add (of_int 1) (of_int 5)) (of_ratio 15 10)) (of_ratio 5 10))
         (of_ratio 5 10).
Proof.
  cbv zeta.
  destruct (Pipeline.process_topic_fields R textblob_polarity run_id
              {| topic := lit "#BreakingNews2024"; count := lit "50K";
                 twitter_link := link |})
    as (_ & _ & _ & _ & Hp & Hs & _).
  rewrite Hp, Hs.
  conjuncts; vm_compute; reflexivity.
Qed.

(** C7, as stated, fails: the generic template embeds the topic without
    its [#] marks, so for a topic such as ["#AI"], which matches no keyword
    fragment, the content does not contain the original topic text. *)
Lemma fallback_omits_marker :
  any_in keyword_fragments (lower ascii_runtime (replace (chr "#") [] (lit "#AI"))) = false
  /\ get_hashtag_post_content ascii_runtime (lit "#AI")
     = lit "Trending discussion about AI. Join the conversation and share your thoughts."
  /\ contains (lit "#AI") (get_hashtag_post_content ascii_runtime (lit "#AI")) = false.
Proof. conjuncts; vm_compute; reflexivity. Qed.

(** C7, amended.  The content is a function of the topic text alone.  The
    entry of the mapping that is returned is the first, in the order the
    mapping is written, whose keyword occurs in the lower-cased topic
    stripped of its [#] marks; when none of the keyword fragments occurs,
    the content is the generic template, which contains the topic text
    stripped of its [#] marks. *)
Theorem content_first_match_and_fallback (R : runtime) (hashtag : str) :
  let hashtag_clean := replace (chr "#") [] hashtag in
  let hashtag_lower := lower R hashtag_clean in
  (forall pre key content post,
      sample_contents hashtag_clean = pre ++ (key, content) :: post ->
      contains key hashtag_lower = true ->
      (forall entry, In entry pre -> contains (fst entry) hashtag_lower = false) ->
      get_hashtag_post_content R hashtag = content)
  /\ (any_in keyword_fragments hashtag_lower = false ->
      get_hashtag_post_content R hashtag = default_content hashtag_clean
      /\ contains hashtag_clean (get_hashtag_post_content R hashtag) = true).
Proof.
  cbv zeta. pose proof (Pipeline.content_is_first_match_or_default R hashtag) as E.
  cbv zeta in E. split.
  - intros pre key content post Hs Hk Hpre.
    rewrite E, Hs, (Pipeline.first_match_split pre post key content); auto.
  - intros Hnone.
    assert (Hd : get_hashtag_post_content R hashtag
                 = default_content (replace (chr "#") [] hashtag)).
    { rewrite E. unfold sample_contents. cbn [first_match].
      repeat (rewrite (Pipeline.any_in_false keyword_fragments _ _ Hnone);
              [|unfold keyword_fragments; cbn [In]; tauto]).
      destruct (contains (lit "default") _); reflexivity. }
    split; [exact Hd|]. rewrite Hd. unfold default_content.
    apply Pipeline.contains_infix.
Qed.

Lemma content_first_match_and_fallback_witness :
  get_hashtag_post_content ascii_runtime (lit "#FloodElection")
  = lit "Breaking: Major developments in FloodElection"
      ++ lit ". Citizens actively participating in democratic process."
  /\ contains (lit "Cricket") (get_hashtag_post_content ascii_runtime (lit "#Cricket")) = true.
Proof.
  split.
  - apply (proj1 (content_first_match_and_fallback ascii_runtime (lit "#FloodElection"))
             [] (lit "election") _ (tl (sample_contents (lit "FloodElection")))).
    + reflexivity.
    + reflexivity.
    + intros entry [].
  - apply (proj2 (content_first_match_and_fallback ascii_runtime (lit "#Cricket"))).
    reflexivity.
Defined.

(** C9.  The rows are built one per topic, in the order of the topics and
    without dropping repeated ones; every row is tagged ["Twitter"], carries
    the topic it comes from, 0 views and the identifier of the run; and
    these rows are what is inserted. *)
Theorem rows_follow_topics
    (R : runtime) (textblob_polarity : str -> result float) (run_id : str)
    (topics_list : list RawTrend) :
  let rows := processed_topics R textblob_polarity run_id topics_list in
  List.length rows = List.length topics_list
  /\ map topic_hashtag rows = map topic topics_list
  /\ Forall2 (fun t r =>
                platform r = lit "Twitter" /\ topic_hashtag r = topic t
                /\ views r = 0 /\ version_id r = run_id)
       topics_list rows
  /\ insert_fresh_data_only R textblob_polarity run_id topics_list
     = match topics_list with
       | [] => []
       | _ => [DeleteWherePlatform (lit "Twitter"); InsertRows rows]
       end.
Proof.
  cbv zeta. rewrite Pipeline.processed_topics_map.
  split; [apply length_map|]. split; [|split].
  - rewrite map_map. apply map_ext. intros t.
    destruct (Pipeline.process_topic_fields R textblob_polarity run_id t)
      as (_ & H & _). exact H.
  - induction topics_list as [| t l IH]; cbn [map]; constructor; [|exact IH].
    destruct (Pipeline.process_topic_fields R textblob_polarity run_id t)
      as (H1 & H2 & H3 & H4 & _). auto.
  - unfold insert_fresh_data_only. rewrite Pipeline.processed_topics_map.
    reflexivity.
Qed.

(** C10.  Whatever the dictionary handed to the scorer, the score is at
    most 9.5, the sum of the base and of every bonus at its largest, so it
    is below the upper clamp 10. *)
Theorem engagement_score_at_most_9_5 (R : runtime) (topic_data : dict value) :
  let score := calculate_engagement_score R topic_data in
  leb score (of_ratio 95 10) = true /\ ltb score (of_int 10) = true
  /\ of_ratio 95 10
     = add (add (add (add (add (of_int 1) (of_int 5)) (of_ratio 15 10)) (of_int 1))
              (of_ratio 5 10)) (of_ratio 5 10).
Proof.
  cbv zeta.
  destruct (Score.calculate_engagement_score_within R topic_data) as [[u [Eu Hu]] _].
  split; [|split]; [| |vm_compute; reflexivity].
  - destruct Score.float_bonus_constants as (_ & _ & E95). revert E95.
    generalize (of_ratio 95 10). intros x ->. rewrite Eu. cbn [leb].
    apply Z.leb_le. lia.
  - destruct Score.float_of_int_constants as (_ & _ & _ & E10). revert E10.
    generalize (of_int 10). intros x ->. rewrite Eu. cbn [ltb].
    pose proof half_scale_pos. apply Z.ltb_lt. lia.
Qed.

(* ================================================================== *)
(** * Further properties: the trend extractor *)
(* ================================================================== *)

Module Extract.

Lemma str_eqb_eq (s t : str) : Str.eqb s t = true <-> s = t.
Proof.
  revert t. induction s as [| c s IH]; intros [| d t]; cbn [Str.eqb]; split;
    intros H; try reflexivity; try discriminate.
  - apply andb_true_iff in H. destruct H as [Hc Hs].
    apply Z.eqb_eq in Hc. apply IH in Hs. now subst.
  - injection H as -> ->. rewrite Z.eqb_refl. now apply IH.
Qed.

Lemma seen_iff (x : str) (seen : list str) :
  existsb (Str.eqb x) seen = true <-> In x seen.
Proof.
  rewrite existsb_exists. split.
  - intros [y [Hy E]]. apply str_eqb_eq in E. now subst.
  - intros H. exists x. split; [assumption | now apply str_eqb_eq].
Qed.

Lemma seen_of_snoc (acc : list RawTrend) (t : RawTrend) :
  rev (map topic (acc ++ [t])) = topic t :: rev (map topic acc).
Proof. now rewrite map_app, rev_app_distr. Qed.

Section WithRuntime.
Variable R : runtime.

(** A property of the list built so far that every kept link preserves
    holds of what the loop returns. *)
Lemma collect_topics_invariant (P : list RawTrend -> Prop) :
  (forall acc link,
      P acc -> (List.length acc < 9)%nat ->
      ~ In (str_strip R (link_text link)) (map topic acc) ->
      startswith (lit "#") (str_strip R (link_text link)) = true ->
      is_indian_text R (str_strip R (link_text link)) = true
        \/ (List.length acc < 5)%nat ->
      P (acc ++ [topic_of_link R link])) ->
  forall links acc,
    P acc -> (List.length acc < 9)%nat ->
    P (collect_topics R links acc (rev (map topic acc))).
Proof.
  intros Hstep links. induction links as [| link rest IH]; intros acc HP Hlen;
    cbn [collect_topics]; [assumption|].
  destruct (existsb _ (rev (map topic acc))) eqn:Eseen; [now apply IH|].
  destruct (startswith (lit "#") _ && _) eqn:Eok; [|now apply IH].
  apply andb_true_iff in Eok. destruct Eok as [Hhash Hind].
  assert (HP' : P (acc ++ [topic_of_link R link])).
  { apply Hstep; try assumption.
    - intros Hin. apply in_rev in Hin. apply seen_iff in Hin. congruence.
    - apply orb_true_iff in Hind. destruct Hind as [Hi | Hl]; [now left|right].
      apply Z.ltb_lt in Hl. lia. }
  fold (topic_of_link R link).
  destruct (Z.leb_spec 9 (Z.of_nat (List.length (acc ++ [topic_of_link R link]))));
    [assumption|].
  replace (str_strip R (link_text link) :: rev (map topic acc))
    with (rev (map topic (acc ++ [topic_of_link R link])))
    by (rewrite seen_of_snoc; reflexivity).
  apply IH; [assumption | lia].
Qed.

(** The loop only adds at the end of the list. *)
Lemma collect_topics_extends (links : list trend_link) (acc : list RawTrend)
    (seen : list str) :
  exists more, collect_topics R links acc seen = acc ++ more.
Proof.
  revert acc seen. induction links as [| link rest IH]; intros acc seen;
    cbn [collect_topics].
  - exists []. now rewrite app_nil_r.
  - destruct (existsb _ seen); [apply IH|].
    destruct (startswith (lit "#") _ && _); [|apply IH].
    destruct (9 <=? _).
    + eexists. reflexivity.
    + destruct (IH (acc ++ [{| topic := str_strip R (link_text link);
                               count := tweet_count_of R link;
                               twitter_link :=
                                 generate_twitter_search_link
                                   (str_strip R (link_text link)) |}])
                  (str_strip R (link_text link) :: seen)) as [more E].
      rewrite E, <- app_assoc. eexists. reflexivity.
Qed.

Section WithFetch.
Variable fetch_trend_links : str -> result (list trend_link).

(** The extraction is empty or the loop run on the links of one of the
    addresses. *)
Lemma try_urls_cases (urls : list str) :
  try_urls R fetch_trend_links urls = []
  \/ exists url links,
       In url urls /\ fetch_trend_links url = Ok links
       /\ try_urls R fetch_trend_links urls = collect_topics R links [] [].
Proof.
  induction urls as [| url rest IH]; cbn [try_urls]; [now left|].
  destruct (fetch_trend_links url) as [[| l ls] | e] eqn:E.
  - destruct IH as [IH | (u & links & Hin & Hf & Hr)]; [now left|right].
    exists u, links. split; [now right | now split].
  - right. exists url, (l :: ls). split; [now left | now split].
  - destruct IH as [IH | (u & links & Hin & Hf & Hr)]; [now left|right].
    exists u, links. split; [now right | now split].
Qed.

Lemma get_trending_topics_invariant (P : list RawTrend -> Prop) :
  P [] ->
  (forall acc link,
      P acc -> (List.length acc < 9)%nat ->
      ~ In (str_strip R (link_text link)) (map topic acc) ->
      startswith (lit "#") (str_strip R (link_text link)) = true ->
      is_indian_text R (str_strip R (link_text link)) = true
        \/ (List.length acc < 5)%nat ->
      P (acc ++ [topic_of_link R link])) ->
  P (get_trending_topics R fetch_trend_links).
Proof.
  intros H0 Hstep. unfold get_trending_topics.
  destruct (try_urls_cases urls_to_try) as [-> | (u & links & _ & _ & ->)];
    [assumption|].
  apply (collect_topics_invariant P Hstep links []); [assumption | cbn; lia].
Qed.

End WithFetch.
End WithRuntime.
End Extract.

Module ExtractProperties.
Import Extract.

Lemma tweet_count_nonempty (R : runtime) (link : trend_link) :
  tweet_count_of R link <> [].
Proof.
  unfold tweet_count_of. destruct (parent_li link) as [[span_text |] |];
    try discriminate.
  destruct (str_strip R span_text); discriminate.
Qed.

Lemma skipn_snoc {A : Type} (n : nat) (l : list A) (x : A) :
  skipn n (l ++ [x]) = skipn n l ++ skipn (n - List.length l) [x].
Proof. apply skipn_app. Qed.

(** The loop returns the list it was given followed by entries made, in
    order, of some of the links. *)
Lemma collect_topics_subsequence (R : runtime) (links : list trend_link)
    (acc : list RawTrend) (seen : list str) :
  exists more,
    collect_topics R links acc seen = acc ++ more
    /\ subsequence more (map (topic_of_link R) links).
Proof.
  revert acc seen. induction links as [| link rest IH]; intros acc seen;
    cbn [collect_topics map].
  - exists []. split; [now rewrite app_nil_r | constructor].
  - destruct (existsb _ seen).
    { destruct (IH acc seen) as [more [E S]]. exists more.
      split; [assumption | now constructor]. }
    destruct (startswith (lit "#") _ && _).
    2:{ destruct (IH acc seen) as [more [E S]]. exists more.
        split; [assumption | now constructor]. }
    fold (topic_of_link R link).
    destruct (9 <=? _).
    + exists [topic_of_link R link]. split; [reflexivity|].
      apply subsequence_keep.
      clear. induction (map (topic_of_link R) rest); now constructor.
    + destruct (IH (acc ++ [topic_of_link R link])
                  (str_strip R (link_text link) :: seen)) as [more [E S]].
      exists (topic_of_link R link :: more). split.
      * rewrite E, <- app_assoc. reflexivity.
      * now constructor.
Qed.

(** A link the loop could keep is kept unless the list is full. *)
Lemma collect_topics_keeps (R : runtime) (links : list trend_link)
    (acc : list RawTrend) (link : trend_link) :
  let result := collect_topics R links acc (rev (map topic acc)) in
  (List.length result < 9)%nat ->
  In link links ->
  startswith (lit "#") (str_strip R (link_text link)) = true ->
  is_indian_text R (str_strip R (link_text link)) = true
    \/ (List.length result < 5)%nat ->
  In (str_strip R (link_text link)) (map topic result).
Proof.
  cbv zeta. revert acc.
  induction links as [| l rest IH]; intros acc Hlen Hin Hhash Hind; [destruct Hin|].
  cbn [collect_topics] in *.
  destruct (collect_topics_extends R rest acc (rev (map topic acc))) as [m0 E0].
  assert (Hsnoc : rev (map topic (acc ++ [topic_of_link R l]))
                  = str_strip R (link_text l) :: rev (map topic acc))
    by apply seen_of_snoc.
  destruct (collect_topics_extends R rest (acc ++ [topic_of_link R l])
              (rev (map topic (acc ++ [topic_of_link R l])))) as [m1 E1].
  rewrite Hsnoc in E1. unfold topic_of_link in E1 at 1.
  destruct (existsb _ (rev (map topic acc))) eqn:Eseen.
  { destruct Hin as [-> | Hin]; [|now apply IH].
    apply seen_iff, in_rev in Eseen. rewrite E0, map_app. apply in_or_app. now left. }
  destruct (startswith (lit "#") (str_strip R (link_text l)) && _) eqn:Eok.
  2:{ destruct Hin as [-> | Hin]; [|now apply IH]. exfalso.
      rewrite Hhash in Eok. cbn [andb] in Eok. apply orb_false_iff in Eok.
      destruct Eok as [Ei El]. destruct Hind as [Hi | Hl]; [congruence|].
      apply Z.ltb_ge in El. rewrite E0, length_app in Hl. lia. }
  destruct (9 <=? _) eqn:Efull.
  { apply Z.leb_le in Efull. lia. }
  destruct Hin as [-> | Hin].
  - rewrite E1, !map_app. apply in_or_app. left. apply in_or_app. right. now left.
  - unfold topic_of_link in Hsnoc at 1. rewrite <- Hsnoc in *.
    now apply IH.
Qed.

Lemma try_urls_first_page (R : runtime)
    (fetch_trend_links : str -> result (list trend_link))
    (pre post : list str) (url : str) (l : trend_link) (ls : list trend_link) :
  Forall (fun u => yields_no_link (fetch_trend_links u)) pre ->
  fetch_trend_links url = Ok (l :: ls) ->
  try_urls R fetch_trend_links (pre ++ url :: post) = collect_topics R (l :: ls) [] [].
Proof.
  intros Hpre Hf. induction Hpre as [| u pre Hu Hpre IH]; cbn [app try_urls].
  - now rewrite Hf.
  - unfold yields_no_link in Hu.
    destruct (fetch_trend_links u) as [[| x xs] | e]; [exact IH | destruct Hu | exact IH].
Qed.

Lemma try_urls_none (R : runtime)
    (fetch_trend_links : str -> result (list trend_link)) (urls : list str) :
  Forall (fun u => yields_no_link (fetch_trend_links u)) urls ->
  try_urls R fetch_trend_links urls = [].
Proof.
  intros H. induction H as [| u urls Hu H IH]; cbn [try_urls]; [reflexivity|].
  unfold yields_no_link in Hu.
  destruct (fetch_trend_links u) as [[| x xs] | e]; [exact IH | destruct Hu | exact IH].
Qed.

(** X1.  Whatever the pages hold, the extractor returns at most nine
    topics. *)
Theorem extraction_at_most_nine
    (R : runtime) (fetch_trend_links : str -> result (list trend_link)) :
  (List.length (get_trending_topics R fetch_trend_links) <= 9)%nat.
Proof.
  apply (get_trending_topics_invariant R fetch_trend_links
           (fun acc => (List.length acc <= 9)%nat)).
  - cbn. lia.
  - intros acc link _ Hlen _ _ _. rewrite length_app. cbn. lia.
Qed.

(** X2.  The topics the extractor returns are pairwise distinct, also when
    a page shows a hashtag several times or with different blanks around
    it. *)
Theorem extraction_topics_distinct
    (R : runtime) (fetch_trend_links : str -> result (list trend_link)) :
  NoDup (map topic (get_trending_topics R fetch_trend_links)).
Proof.
  apply (get_trending_topics_invariant R fetch_trend_links
           (fun acc => NoDup (map topic acc))).
  - constructor.
  - intros acc link Hnd _ Hnew _ _. rewrite map_app. cbn [map].
    apply NoDup_app; repeat split; auto.
    + constructor; [intros [] | constructor].
    + intros x Hx [<- | []]. now apply Hnew.
Qed.

(** X3.  Every entry the extractor returns has a topic that starts with
    [#], the search link made of that topic, and a count that is not the
    empty text (["N/A"] stands for a missing one). *)
Theorem extraction_entries_well_formed
    (R : runtime) (fetch_trend_links : str -> result (list trend_link)) :
  Forall (fun t => startswith (lit "#") (topic t) = true
                   /\ twitter_link t = generate_twitter_search_link (topic t)
                   /\ count t <> [])
    (get_trending_topics R fetch_trend_links).
Proof.
  apply (get_trending_topics_invariant R fetch_trend_links
           (Forall (fun t => startswith (lit "#") (topic t) = true
                             /\ twitter_link t = generate_twitter_search_link (topic t)
                             /\ count t <> []))).
  - constructor.
  - intros acc link Hall _ _ Hhash _. apply Forall_app. split; [assumption|].
    constructor; [|constructor]. cbn [topic_of_link topic twitter_link count].
    split; [assumption|]. split; [reflexivity | apply tweet_count_nonempty].
Qed.

(** X4.  Only the first five topics of the extraction may be unrelated to
    India: every topic from the sixth on passes [is_indian_text]. *)
Theorem extraction_beyond_five_is_indian
    (R : runtime) (fetch_trend_links : str -> result (list trend_link)) :
  Forall (fun t => is_indian_text R (topic t) = true)
    (skipn 5 (get_trending_topics R fetch_trend_links)).
Proof.
  apply (get_trending_topics_invariant R fetch_trend_links
           (fun acc => Forall (fun t => is_indian_text R (topic t) = true)
                         (skipn 5 acc))).
  - constructor.
  - intros acc link Hall _ _ _ Hind. rewrite skipn_snoc. apply Forall_app.
    split; [assumption|].
    destruct Hind as [Hi | Hl].
    + destruct (5 - List.length acc)%nat as [| [| n]]; cbn [skipn];
        repeat constructor. exact Hi.
    + destruct (5 - List.length acc)%nat as [| [| n]] eqn:E; [lia| |];
        cbn [skipn]; constructor.
Qed.

(** X5.  The extraction is empty, or it is made of links of the page of
    one of the three addresses, each kept link giving one entry, in the
    order of the page. *)
Theorem extraction_follows_page
    (R : runtime) (fetch_trend_links : str -> result (list trend_link)) :
  get_trending_topics R fetch_trend_links = []
  \/ exists url links,
       In url urls_to_try /\ fetch_trend_links url = Ok links
       /\ subsequence (get_trending_topics R fetch_trend_links)
            (map (topic_of_link R) links).
Proof.
  unfold get_trending_topics.
  destruct (try_urls_cases R fetch_trend_links urls_to_try)
    as [E | (url & links & Hin & Hf & E)]; [now left|right].
  exists url, links. split; [assumption|]. split; [assumption|].
  rewrite E. destruct (collect_topics_subsequence R links [] []) as [more [-> S]].
  exact S.
Qed.

(** X6.  A page loses no eligible link unless nine topics are reached: when
    the loop returns fewer than nine topics, the text of every link that
    starts with [#] and is related to India is among them, and when it
    returns fewer than five, so is the text of every link that starts with
    [#]. *)
Theorem extraction_keeps_eligible_links
    (R : runtime) (links : list trend_link) (link : trend_link) :
  let result := collect_topics R links [] [] in
  (List.length result < 9)%nat ->
  In link links ->
  startswith (lit "#") (str_strip R (link_text link)) = true ->
  is_indian_text R (str_strip R (link_text link)) = true
    \/ (List.length result < 5)%nat ->
  In (str_strip R (link_text link)) (map topic result).
Proof. exact (collect_topics_keeps R links [] link). Qed.

Lemma extraction_keeps_eligible_links_witness :
  In (lit "#MumbaiLocal") (map topic (collect_topics ascii_runtime example_page [] [])).
Proof.
  apply (extraction_keeps_eligible_links ascii_runtime example_page
           {| link_text := lit "#MumbaiLocal";
              parent_li := Some (Some (lit "1,234")) |}).
  - vm_compute. lia.
  - cbn. tauto.
  - reflexivity.
  - left. reflexivity.
Defined.

(** X7.  The addresses are tried in order and the first page that has a
    link decides, even if none of its links is kept: the addresses before
    it failed or had no link, and those after it are not consulted.  When
    no address yields a link the extraction is empty. *)
Theorem extraction_uses_first_page_with_links
    (R : runtime) (fetch_trend_links : str -> result (list trend_link)) :
  (forall pre url post l ls,
      urls_to_try = pre ++ url :: post ->
      Forall (fun u => yields_no_link (fetch_trend_links u)) pre ->
      fetch_trend_links url = Ok (l :: ls) ->
      get_trending_topics R fetch_trend_links = collect_topics R (l :: ls) [] [])
  /\ (Forall (fun u => yields_no_link (fetch_trend_links u)) urls_to_try ->
      get_trending_topics R fetch_trend_links = []).
Proof.
  split.
  - intros pre url post l ls E Hpre Hf. unfold get_trending_topics. rewrite E.
    now apply try_urls_first_page.
  - apply try_urls_none.
Qed.

Lemma extraction_uses_first_page_with_links_witness :
  get_trending_topics ascii_runtime example_fetch
  = collect_topics ascii_runtime example_page [] []
  /\ get_trending_topics ascii_runtime (fun _ => Raise ExternalError) = [].
Proof.
  split.
  - apply (proj1 (extraction_uses_first_page_with_links ascii_runtime example_fetch)
             [lit "https://trends24.in/india/"] (lit "http://trends24.in/india/")
             [lit "https://www.trends24.in/india/"]).
    + reflexivity.
    + constructor; [exact I | constructor].
    + reflexivity.
  - apply (proj2 (extraction_uses_first_page_with_links ascii_runtime
                    (fun _ => Raise ExternalError))).
    repeat constructor.
Defined.

End ExtractProperties.

(* ================================================================== *)
(** * Further properties: the classifier, the search link, the content
      and the sentiment text *)
(* ================================================================== *)

Module TextProperties.

Lemma startswith_app_l (k x z : str) :
  startswith k x = true -> startswith k (x ++ z) = true.
Proof.
  revert x. induction k as [| c k IH]; intros [| d x]; cbn [startswith app];
    try reflexivity; try discriminate.
  intros H. apply andb_true_iff in H. destruct H as [-> H]. now apply IH.
Qed.

Lemma contains_app_l (k x z : str) :
  contains k x = true -> contains k (x ++ z) = true.
Proof.
  induction x as [| d x IH].
  - cbn [contains app]. rewrite orb_false_r. intros H.
    rewrite Pipeline.contains_unfold.
    pose proof (startswith_app_l k [] z H) as H'. cbn [app] in H'.
    rewrite H'. reflexivity.
  - cbn [contains app]. intros H. apply orb_true_iff in H.
    destruct H as [H | H].
    + pose proof (startswith_app_l k (d :: x) z H) as H'. cbn [app] in H'.
      rewrite H'. reflexivity.
    + rewrite (IH H). apply orb_true_r.
Qed.

Lemma contains_app_r (k x y : str) :
  contains k y = true -> contains k (x ++ y) = true.
Proof.
  intros H. induction x as [| d x IH]; cbn [contains app]; [assumption|].
  rewrite IH. apply orb_true_r.
Qed.

Lemma contains_infix_of (k a t b : str) :
  contains k t = true -> contains k (a ++ t ++ b) = true.
Proof. intros H. now apply contains_app_r, contains_app_l. Qed.

Lemma not_in_contains (c : codepoint) (s : str) :
  ~ In c s -> contains [c] s = false.
Proof.
  induction s as [| d s IH]; cbn [contains startswith In]; intros H.
  - reflexivity.
  - destruct (Z.eqb_spec c d) as [-> | N]; [exfalso; apply H; now left|].
    cbn [andb orb]. apply IH. intros Hin. apply H. now right.
Qed.

Lemma replace_removes (old : codepoint) (new s : str) :
  ~ In old new -> ~ In old (replace old new s).
Proof.
  intros Hnew H. unfold replace in H. apply in_flat_map in H.
  destruct H as [d [Hd Hc]]. destruct (Z.eqb_spec d old) as [-> | N].
  - now apply Hnew.
  - destruct Hc as [-> | []]. now apply N.
Qed.

Lemma replace_keeps_out (old c : codepoint) (new s : str) :
  ~ In c new -> ~ In c s -> ~ In c (replace old new s).
Proof.
  intros Hnew Hs H. apply Count.in_replace in H. tauto.
Qed.

Lemma any_in_infix (keywords : list str) (a t b : str) :
  any_in keywords t = true -> any_in keywords (a ++ t ++ b) = true.
Proof.
  unfold any_in. intros H. apply existsb_exists in H. destruct H as [k [Hk Hc]].
  apply existsb_exists. exists k. split; [assumption | now apply contains_infix_of].
Qed.

Lemma ascii_has_no_devanagari (s : str) :
  Forall (fun c => c < 128) s -> existsb is_devanagari s = false.
Proof.
  induction 1 as [| c s Hc _ IH]; cbn [existsb]; [reflexivity|].
  rewrite IH. unfold is_devanagari.
  destruct (Z.leb_spec 2304 c); [lia | reflexivity].
Qed.

Section WithRuntime.
Variable R : runtime.

Lemma lower_app (a b : str) : lower R (a ++ b) = lower R a ++ lower R b.
Proof. unfold lower. apply flat_map_app. Qed.

Lemma lower_ascii (s : str) :
  Forall (fun c => c < 128) s -> lower R s = ascii_lower s.
Proof.
  induction 1 as [| c s Hc _ IH]; [reflexivity|].
  unfold lower, ascii_lower in *. cbn [flat_map map]. rewrite IH.
  unfold lower_cp. destruct (Z.ltb_spec c 128); [reflexivity | lia].
Qed.

End WithRuntime.

(** X8.  A text that contains a text related to India is related to India:
    what is written before and after a Devanagari letter or a listed term
    does not matter. *)
Theorem is_indian_text_inside (R : runtime) (before text after : str) :
  is_indian_text R text = true ->
  is_indian_text R (before ++ text ++ after) = true.
Proof.
  unfold is_indian_text. intros H.
  destruct (existsb is_devanagari text) eqn:Ed.
  - rewrite !existsb_app, Ed, orb_true_r. reflexivity.
  - destruct (any_in indian_terms (lower R text)) eqn:Ea; [|discriminate].
    destruct (existsb is_devanagari (before ++ text ++ after)); [reflexivity|].
    rewrite !lower_app, (any_in_infix _ _ _ _ Ea). reflexivity.
Qed.

Lemma is_indian_text_inside_witness :
  is_indian_text ascii_runtime (lit "#" ++ lit "Delhi" ++ lit "Rains") = true.
Proof.
  apply (is_indian_text_inside ascii_runtime (lit "#") (lit "Delhi") (lit "Rains")).
  reflexivity.
Defined.

(** X9.  On ASCII texts the classifier does not look at the letter case:
    two ASCII texts that are equal once lower-cased are classified alike. *)
Theorem is_indian_text_ignores_case (R : runtime) (s t : str) :
  Forall (fun c => c < 128) s -> Forall (fun c => c < 128) t ->
  ascii_lower s = ascii_lower t ->
  is_indian_text R s = is_indian_text R t.
Proof.
  intros Hs Ht E. unfold is_indian_text.
  rewrite (ascii_has_no_devanagari s Hs), (ascii_has_no_devanagari t Ht).
  rewrite (lower_ascii R s Hs), (lower_ascii R t Ht), E. reflexivity.
Qed.

Lemma is_indian_text_ignores_case_witness :
  is_indian_text ascii_runtime (lit "#MUMBAI") = is_indian_text ascii_runtime (lit "#mumbai").
Proof.
  apply (is_indian_text_ignores_case ascii_runtime (lit "#MUMBAI") (lit "#mumbai")).
  - repeat constructor.
  - repeat constructor.
  - reflexivity.
Defined.

(** X10.  The search link of any topic starts with the address of the
    search page and holds no [#]: every [#] of the topic is written
    [%23]. *)
Theorem search_link_has_no_hash (topic : str) :
  startswith (lit "https://twitter.com/search?q=") (generate_twitter_search_link topic)
  = true
  /\ contains (lit "#") (generate_twitter_search_link topic) = false
  /\ List.length (generate_twitter_search_link topic)
     = (29 + List.length topic + 2 * List.length (filter (Z.eqb 35) topic))%nat.
Proof.
  unfold generate_twitter_search_link. split; [apply Pipeline.startswith_app|].
  split.
  - apply not_in_contains. intros H. apply in_app_or in H. destruct H as [H | H].
    + revert H. cbn. intuition discriminate.
    + revert H. apply replace_removes. cbn. intuition discriminate.
  - rewrite length_app. change (List.length (lit "https://twitter.com/search?q=")) with 29%nat.
    assert (E : List.length (replace (chr "#") (lit "%23") topic)
                = (List.length topic + 2 * List.length (filter (Z.eqb 35) topic))%nat).
    { change (chr "#") with 35. change (lit "%23") with [37; 50; 51].
      induction topic as [| c t IH]; [reflexivity|].
      unfold replace in *. cbn [flat_map filter]. rewrite length_app, IH.
      rewrite (Z.eqb_sym c 35).
      destruct (35 =? c); cbn [List.length]; lia. }
    rewrite E. lia.
Qed.

(** X11.  Two topics without a percent sign that have the same search link
    are the same topic. *)
Theorem search_link_injective (t1 t2 : str) :
  ~ In 37 t1 -> ~ In 37 t2 ->
  generate_twitter_search_link t1 = generate_twitter_search_link t2 ->
  t1 = t2.
Proof.
  unfold generate_twitter_search_link. intros H1 H2 E.
  apply app_inv_head in E. revert t2 H1 H2 E.
  change (chr "#") with 35. change (lit "%23") with [37; 50; 51].
  unfold replace.
  induction t1 as [| c1 t1 IH]; intros [| c2 t2] H1 H2 E; cbn [flat_map] in E.
  - reflexivity.
  - destruct (c2 =? 35); discriminate.
  - destruct (c1 =? 35); discriminate.
  - assert (N1 : c1 <> 37) by (intros ->; apply H1; now left).
    assert (N2 : c2 <> 37) by (intros ->; apply H2; now left).
    assert (T1 : ~ In 37 t1) by (intros H; apply H1; now right).
    assert (T2 : ~ In 37 t2) by (intros H; apply H2; now right).
    destruct (Z.eqb_spec c1 35) as [-> | M1]; destruct (Z.eqb_spec c2 35) as [-> | M2];
      cbn [app] in E.
    + injection E as E. f_equal. now apply IH.
    + injection E as E _. congruence.
    + injection E as E _. congruence.
    + injection E as -> E. f_equal. now apply IH.
Qed.

Lemma search_link_injective_witness :
  lit "#a" = lit "#a".
Proof.
  apply (search_link_injective (lit "#a") (lit "#a")).
  - cbn. intuition discriminate.
  - cbn. intuition discriminate.
  - reflexivity.
Defined.

(** X12.  The synthesized content never holds a [#], whatever the topic:
    every template embeds the topic stripped of its marks. *)
Theorem content_has_no_hash (R : runtime) (hashtag : str) :
  contains (lit "#") (get_hashtag_post_content R hashtag) = false.
Proof.
  apply not_in_contains. change (chr "#") with 35.
  pose proof (Pipeline.content_is_first_match_or_default R hashtag) as E.
  cbv zeta in E. rewrite E. clear E.
  assert (Hc : ~ In 35 (replace 35 [] hashtag)) by (apply replace_removes; intros []).
  change (chr "#") with 35.
  set (clean := replace 35 [] hashtag) in *. clearbody clean.
  assert (T : forall a b : str, ~ In 35 a -> ~ In 35 b -> ~ In 35 (a ++ clean ++ b)).
  { intros a b Ha Hb H. apply in_app_or in H. destruct H as [H | H]; [tauto|].
    apply in_app_or in H. tauto. }
  unfold sample_contents, default_content. cbn [first_match].
  repeat match goal with
         | |- context [if ?b then _ else _] => destruct b
         end;
    apply T; cbn; intuition discriminate.
Qed.

(** X13.  The sentiment library is only asked about texts without [#] and
    without underscore: two libraries that agree on such texts give the
    same analysis of every hashtag. *)
Theorem sentiment_text_is_clean
    (library1 library2 : str -> result float) (hashtag : str) :
  (forall text, ~ In 35 text -> ~ In 95 text -> library1 text = library2 text) ->
  analyze_hashtag_sentiment library1 hashtag = analyze_hashtag_sentiment library2 hashtag.
Proof.
  intros H. unfold analyze_hashtag_sentiment. rewrite H; [reflexivity| |].
  - apply replace_keeps_out; [cbn; intuition discriminate|].
    apply replace_removes. intros [].
  - apply replace_removes. cbn. intuition discriminate.
Qed.

Lemma sentiment_text_is_clean_witness :
  analyze_hashtag_sentiment (fun _ => Ok (of_int 1)) (lit "#good_day")
  = analyze_hashtag_sentiment
      (fun text => if contains (lit "_") text then Raise ExternalError else Ok (of_int 1))
      (lit "#good_day").
Proof.
  apply (sentiment_text_is_clean (fun _ => Ok (of_int 1))
           (fun text => if contains (lit "_") text then Raise ExternalError
                        else Ok (of_int 1))
           (lit "#good_day")).
  intros text _ H. cbv beta.
  pose proof (not_in_contains 95 text H) as E.
  change (contains (lit "_") text = false) in E. rewrite E. reflexivity.
Defined.

End TextProperties.

(* ================================================================== *)
(** * Further properties: exact arithmetic *)
(* ================================================================== *)

Module Exact.

Local Opaque unit_scale half_scale.

Lemma unit_scale_pow : unit_scale = 2 ^ 1074.
Proof. reflexivity. Qed.

Lemma rne_scale (a c q : Z) : 0 < c -> 0 < q -> rne (a * q) (c * q) = rne a c.
Proof.
  intros Hc Hq. unfold rne.
  rewrite Z.div_mul_cancel_r, Z.mul_mod_distr_r by lia.
  assert (E : (2 * (a mod c * q) ?= c * q) = (2 * (a mod c) ?= c)).
  { destruct (Z.compare_spec (2 * (a mod c)) c);
      [apply Z.compare_eq_iff | apply Z.compare_lt_iff | apply Z.compare_gt_iff]; nia. }
  rewrite E. reflexivity.
Qed.

(** Rounding a quotient that is a whole number of units is rounding that
    number. *)
Lemma round_units_scale (a q : Z) : 0 < q -> round_units (a * q) q = round_units a 1.
Proof.
  intros Hq. unfold round_units. rewrite Z.div_mul, Z.div_1_r by lia.
  destruct (Z.leb_spec (Z.log2 a - 52) 0).
  - replace q with (1 * q) at 2 by lia. apply rne_scale; lia.
  - assert (0 < 2 ^ (Z.log2 a - 52)) by (apply Z.pow_pos_nonneg; lia).
    replace (q * 2 ^ (Z.log2 a - 52)) with (1 * 2 ^ (Z.log2 a - 52) * q) by ring.
    rewrite rne_scale by lia. reflexivity.
Qed.

(** A number of at most 53 significant bits is its own rounding. *)
Lemma round_units_exact (m j : Z) :
  0 <= m < 2 ^ 53 -> 0 <= j -> round_units (m * 2 ^ j) 1 = m * 2 ^ j.
Proof.
  intros Hm Hj. unfold round_units. rewrite Z.div_1_r.
  destruct (Z.eq_dec m 0) as [-> | Hm0].
  - rewrite Z.mul_0_l. cbn. reflexivity.
  - assert (Hl : Z.log2 (m * 2 ^ j) = Z.log2 m + j) by (rewrite Z.log2_mul_pow2 by lia; lia).
    assert (Hl53 : Z.log2 m < 53) by (apply Z.log2_lt_pow2; lia).
    rewrite Hl.
    destruct (Z.leb_spec (Z.log2 m + j - 52) 0).
    + replace (m * 2 ^ j) with (m * 2 ^ j * 1) at 1 by ring. apply rne_exact. lia.
    + set (k := Z.log2 m + j - 52) in *.
      assert (Hjk : 2 ^ j = 2 ^ (j - k) * 2 ^ k)
        by (rewrite <- Z.pow_add_r by lia; f_equal; lia).
      assert (0 < 2 ^ k) by (apply Z.pow_pos_nonneg; lia).
      rewrite Z.mul_1_l, Hjk, Z.mul_assoc, rne_exact by lia. reflexivity.
Qed.

(** The float of a number of at most 53 significant bits, given with a
    denominator. *)
Lemma round64_exact (m j q : Z) :
  0 <= m < 2 ^ 53 -> 0 <= j <= 2000 -> 0 < q ->
  round64 (m * 2 ^ j * q) q = Finite (m * 2 ^ j).
Proof.
  intros Hm Hj Hq.
  assert (H2j : 0 < 2 ^ j) by (apply Z.pow_pos_nonneg; lia).
  unfold round64. rewrite Z.abs_eq by nia.
  rewrite round_units_scale, round_units_exact by lia.
  assert (Hlt : m * 2 ^ j < overflow_threshold).
  { unfold overflow_threshold.
    assert (2 ^ j <= 2 ^ 2000) by (apply Z.pow_le_mono_r; lia).
    assert (E : 2 ^ 2098 = 2 ^ 53 * 2 ^ 2045) by (rewrite <- Z.pow_add_r by lia; reflexivity).
    assert (2 ^ 2000 <= 2 ^ 2045) by (apply Z.pow_le_mono_r; lia).
    rewrite E. nia. }
  destruct (Z.leb_spec overflow_threshold (m * 2 ^ j)); [lia|].
  destruct (Z.eq_dec m 0) as [-> | N].
  - rewrite !Z.mul_0_l. reflexivity.
  - rewrite Z.sgn_pos by nia. f_equal. lia.
Qed.

Lemma of_int_exact (n : Z) : 0 <= n < 2 ^ 53 -> of_int n = Finite (n * unit_scale).
Proof.
  intros Hn. unfold of_int, of_ratio. rewrite unit_scale_pow.
  replace (n * 2 ^ 1074) with (n * 2 ^ 1074 * 1) at 1 by ring.
  apply round64_exact; lia.
Qed.

Lemma of_halves_exact (n : Z) : 0 <= n < 2 ^ 53 -> of_ratio n 2 = Finite (n * half_scale).
Proof.
  intros Hn. unfold of_ratio.
  replace (n * unit_scale) with (n * 2 ^ 1073 * 2) by (rewrite unit_scale_pow; lia).
  change half_scale with (2 ^ 1073). apply round64_exact; lia.
Qed.

Lemma mul_exact (a b : Z) :
  0 <= a -> 0 <= b -> a * b < 2 ^ 53 ->
  mul (Finite (a * unit_scale)) (Finite (b * unit_scale)) = Finite (a * b * unit_scale).
Proof.
  intros Ha Hb Hab. cbn [mul].
  replace (a * unit_scale * (b * unit_scale)) with (a * b * 2 ^ 1074 * unit_scale)
    by (rewrite unit_scale_pow; ring).
  rewrite unit_scale_pow at 2. apply round64_exact; lia.
Qed.

Lemma add_halves_exact (a b : Z) :
  0 <= a -> 0 <= b -> a + b < 2 ^ 53 ->
  add (Finite (a * half_scale)) (Finite (b * half_scale)) = Finite ((a + b) * half_scale).
Proof.
  intros Ha Hb Hab. cbn [add].
  replace (a * half_scale + b * half_scale) with ((a + b) * 2 ^ 1073 * 1)
    by (change half_scale with (2 ^ 1073); ring).
  change half_scale with (2 ^ 1073). apply round64_exact; lia.
Qed.

(** Rounding a whole number of halves to two decimals leaves it as it
    is. *)
Lemma round2_halves_exact (n : Z) :
  0 <= n < 2 ^ 40 -> round2 (Finite (n * half_scale)) = Finite (n * half_scale).
Proof.
  intros Hn. cbn [round2].
  assert (Hu : 0 < unit_scale) by reflexivity.
  replace (n * half_scale * 100) with (50 * n * unit_scale)
    by (rewrite unit_scale_halves; ring).
  rewrite rne_exact by lia. unfold of_ratio.
  replace (50 * n * unit_scale) with (n * 2 ^ 1073 * 100)
    by (rewrite unit_scale_pow; lia).
  change half_scale with (2 ^ 1073). apply round64_exact; lia.
Qed.

Lemma trunc_exact (n : Z) : trunc (n * unit_scale) = n.
Proof.
  unfold trunc. apply Z.quot_mul. rewrite unit_scale_pow.
  assert (0 < 2 ^ 1074) by (apply Z.pow_pos_nonneg; lia). lia.
Qed.

End Exact.

(* ================================================================== *)
(** * Further properties: the engagement score in closed form *)
(* ================================================================== *)

Module ScoreProperties.
Import Exact.

Local Opaque unit_scale half_scale.

Lemma bonus_exact (n b : Z) (flag : bool) :
  0 <= n -> 0 <= b -> n + b < 2 ^ 53 ->
  (if flag then add (Finite (n * half_scale)) (Finite (b * half_scale))
   else Finite (n * half_scale))
  = Finite ((n + b * bool_to_Z flag) * half_scale).
Proof.
  intros Hn Hb Hs. destruct flag; cbn [bool_to_Z].
  - rewrite add_halves_exact by lia. f_equal. lia.
  - f_equal. lia.
Qed.

Lemma clamp_exact (k : Z) :
  2 <= k <= 19 ->
  to_float (max_int 1 (min_int 10 (NFloat (round2 (Finite (k * half_scale))))))
  = Finite (k * half_scale).
Proof.
  intros Hk. rewrite round2_halves_exact by lia.
  pose proof half_scale_pos as Hh. pose proof unit_scale_halves as Hu.
  unfold min_int, max_int, ltb_int, gtb_int.
  destruct (Z.ltb_spec (k * half_scale) (10 * unit_scale)); [|nia].
  destruct (Z.ltb_spec (1 * unit_scale) (k * half_scale)); [reflexivity|].
  cbn [to_float]. rewrite of_int_exact by lia. f_equal. nia.
Qed.

Lemma bool_to_Z_range (b : bool) : 0 <= bool_to_Z b <= 1.
Proof. destruct b; cbn; lia. Qed.

Lemma truediv_10000 (tweet_count : Z) :
  truediv tweet_count 10000
  = match round64 (tweet_count * unit_scale) 10000 with
    | Inf _ => Raise OverflowError
    | q => Ok q
    end.
Proof.
  unfold truediv. change (10000 =? 0) with false. cbv iota.
  change (Z.sgn 10000) with 1. change (Z.abs 10000) with 10000.
  rewrite Z.mul_1_l. reflexivity.
Qed.

(** Between two bounds whose roundings are known, a rounding is finite
    and not below the rounding of the lower bound. *)
Lemma round64_between (p p1 p2 q lo hi : Z) :
  0 < q -> 0 <= p1 -> p1 <= p -> p <= p2 ->
  round64 p1 q = Finite lo -> round64 p2 q = Finite hi ->
  exists u, round64 p q = Finite u /\ lo <= u <= hi.
Proof.
  intros Hq H1 Hlo Hhi El Eh.
  pose proof (round64_mono p1 p q Hq H1 Hlo) as M1.
  pose proof (round64_mono p p2 q Hq ltac:(lia) Hhi) as M2.
  rewrite El in M1. rewrite Eh in M2. clear El Eh.
  revert M1 M2. generalize (round64 p q). intros [u | s | ]; cbn [leb];
    intros M1 M2; try discriminate.
  - exists u. split; [reflexivity|]. apply Z.leb_le in M1, M2. lia.
  - destruct s; discriminate.
Qed.

Lemma round64_above_overflow (p p1 q : Z) :
  0 < q -> 0 <= p1 -> p1 <= p -> round64 p1 q = Inf false -> round64 p q = Inf false.
Proof.
  intros Hq H1 Hlo El.
  pose proof (round64_mono p1 p q Hq H1 Hlo) as M1.
  rewrite El in M1. clear El.
  revert M1. generalize (round64 p q). intros [u | s | ]; cbn [leb];
    intros M1; try discriminate.
  destruct s; [discriminate | reflexivity].
Qed.

Lemma quotient_at_least_2_5 (tweet_count : Z) :
  25000 <= tweet_count < 10 ^ 300 ->
  exists u, truediv tweet_count 10000 = Ok (Finite u) /\ 5 * half_scale <= u.
Proof.
  intros Ht. rewrite truediv_10000.
  assert (Hs : 0 < unit_scale) by reflexivity.
  destruct (round64_between (tweet_count * unit_scale) (25000 * unit_scale)
              (10 ^ 300 * unit_scale) 10000 (5 * half_scale)
              (units_of (round64 (10 ^ 300 * unit_scale) 10000)))
    as [u [E Hu]]; try lia; try nia.
  - vm_compute. reflexivity.
  - vm_compute. reflexivity.
  - exists u. rewrite E. split; [reflexivity | lia].
Qed.

Lemma quotient_overflows (tweet_count : Z) :
  10 ^ 313 <= tweet_count -> truediv tweet_count 10000 = Raise OverflowError.
Proof.
  intros Ht. rewrite truediv_10000.
  assert (Hs : 0 < unit_scale) by reflexivity.
  assert (0 < 10 ^ 313) by (apply Z.pow_pos_nonneg; lia).
  rewrite (round64_above_overflow (tweet_count * unit_scale) (10 ^ 313 * unit_scale)
             10000); try lia; try nia.
  - reflexivity.
  - vm_compute. reflexivity.
Qed.

Lemma doubled_quotient_capped (u : Z) :
  5 * half_scale <= u ->
  to_float (min_int 5 (max_int 0 (NFloat (mul (Finite u) (of_int 2))))) = of_int 5.
Proof.
  intros Hu. rewrite (of_int_exact 2) by lia. cbn [mul].
  pose proof half_scale_pos as Hh. pose proof unit_scale_halves as E.
  assert (Hs : 0 < unit_scale) by reflexivity.
  assert (M : leb (Finite (10 * half_scale))
                  (round64 (u * (2 * unit_scale)) unit_scale) = true).
  { replace (Finite (10 * half_scale))
      with (round64 (5 * half_scale * (2 * unit_scale)) unit_scale)
      by (vm_compute; reflexivity).
    apply round64_mono; nia. }
  revert M. generalize (round64 (u * (2 * unit_scale)) unit_scale).
  intros [v | s | ]; cbn [leb]; intros M; try discriminate.
  - apply Z.leb_le in M. unfold max_int, min_int, gtb_int, ltb_int.
    destruct (Z.ltb_spec (0 * unit_scale) v); [|lia].
    destruct (Z.ltb_spec v (5 * unit_scale)); [lia | reflexivity].
  - destruct s; [discriminate | reflexivity].
Qed.

Section WithRuntime.
Variable R : runtime.

(** The score built on a score [n] halves reached after the count. *)
Lemma score_after_count (topic_data : dict value) (t : str) (n : Z) :
  get topic_data (lit "topic") (VStr []) = VStr t ->
  2 <= n <= 12 ->
  (if negb (eq_str (get topic_data (lit "count") (VStr (lit "N/A"))) (lit "N/A"))
      && truthy (get topic_data (lit "count") (VStr (lit "N/A")))
   then try_except
          (add_count R (of_ratio 10 10) (get topic_data (lit "count") (VStr (lit "N/A"))))
          (fun _ => of_ratio 10 10)
   else of_ratio 10 10) = Finite (n * half_scale) ->
  calculate_engagement_score R topic_data = of_ratio (n + topic_bonus_halves R t) 2.
Proof.
  intros Et Hn Es. unfold calculate_engagement_score, engagement_score_body.
  rewrite Es, Et. cbn [str_method bind len try_except].
  destruct Score.float_bonus_constants as (E15 & E05 & _).
  rewrite Score.float_1_0, E15, E05.
  pose proof (bool_to_Z_range (any_in trending_keywords (lower R t))) as B1.
  pose proof (bool_to_Z_range (any_in indian_keywords (lower R t))) as B2.
  pose proof (bool_to_Z_range (15 <? Z.of_nat (List.length t))) as B3.
  pose proof (bool_to_Z_range (any_in marker_substrings t)) as B4.
  rewrite (bonus_exact n 3) by lia.
  rewrite (bonus_exact _ 2) by lia.
  rewrite (bonus_exact _ 1) by lia.
  rewrite (bonus_exact _ 1) by lia.
  rewrite clamp_exact by lia.
  rewrite of_halves_exact by (unfold topic_bonus_halves; lia).
  f_equal. unfold topic_bonus_halves. ring.
Qed.

(** A count of 25000 or more, short of overflowing the quotient, adds
    exactly 5. *)
Lemma capped_count (score : float) (c : str) (tweet_count : Z) :
  int_of_digits R (scorer_digits R c) = Ok tweet_count ->
  25000 <= tweet_count < 10 ^ 300 ->
  add_count R score (VStr c) = Ok (add score (of_int 5)).
Proof.
  intros Ei Ht. unfold add_count. cbn [str_method bind].
  destruct (scorer_digits R c) as [| d ds] eqn:Ed; [discriminate|].
  rewrite Ei. cbn [bind].
  destruct (Z.ltb_spec 0 tweet_count); [|lia].
  destruct (quotient_at_least_2_5 tweet_count Ht) as [u [-> Hu]].
  cbn [bind]. rewrite (doubled_quotient_capped u Hu). reflexivity.
Qed.

(** A count so large that its quotient by 10000 is beyond the floats
    fails the division. *)
Lemma overflowing_count (score : float) (c : str) (tweet_count : Z) :
  int_of_digits R (scorer_digits R c) = Ok tweet_count ->
  10 ^ 313 <= tweet_count ->
  add_count R score (VStr c) = Raise OverflowError.
Proof.
  intros Ei Ht. unfold add_count. cbn [str_method bind].
  destruct (scorer_digits R c) as [| d ds] eqn:Ed; [discriminate|].
  rewrite Ei. cbn [bind].
  assert (0 < 10 ^ 313) by (apply Z.pow_pos_nonneg; lia).
  destruct (Z.ltb_spec 0 tweet_count); [|lia].
  rewrite (quotient_overflows tweet_count Ht). reflexivity.
Qed.

End WithRuntime.

(** X14.  When the count holds no digit (["N/A"], the empty text, a word),
    the score is exactly 1 plus the bonuses of the topic: 1.5 for an
    urgency keyword, 1 for a locale keyword, 0.5 for more than 15
    characters and 0.5 for a marker. *)
Theorem score_without_count
    (R : runtime) (topic_data : dict value) (t c : str) :
  get topic_data (lit "topic") (VStr []) = VStr t ->
  get topic_data (lit "count") (VStr (lit "N/A")) = VStr c ->
  scorer_digits R c = [] ->
  calculate_engagement_score R topic_data = of_ratio (2 + topic_bonus_halves R t) 2.
Proof.
  intros Et Ec Ed. apply score_after_count; [assumption | lia|].
  rewrite Ec, Score.float_1_0.
  destruct (negb (eq_str (VStr c) (lit "N/A")) && truthy (VStr c)); [|reflexivity].
  unfold add_count. cbn [str_method bind]. rewrite Ed. reflexivity.
Qed.

Lemma score_without_count_witness :
  calculate_engagement_score ascii_runtime (topic_and_count (lit "#LiveUpdate") (lit "N/A"))
  = of_ratio (2 + topic_bonus_halves ascii_runtime (lit "#LiveUpdate")) 2.
Proof.
  apply (score_without_count ascii_runtime _ (lit "#LiveUpdate") (lit "N/A"));
    reflexivity.
Defined.

(** X15.  When the digits the scorer reads out of the count make a number
    from 25000 up (and below 10^300), the count adds its cap: the score is
    exactly 6 plus the bonuses of the topic. *)
Theorem score_with_capped_count
    (R : runtime) (topic_data : dict value) (t c : str) (tweet_count : Z) :
  get topic_data (lit "topic") (VStr []) = VStr t ->
  get topic_data (lit "count") (VStr (lit "N/A")) = VStr c ->
  int_of_digits R (scorer_digits R c) = Ok tweet_count ->
  25000 <= tweet_count < 10 ^ 300 ->
  calculate_engagement_score R topic_data = of_ratio (12 + topic_bonus_halves R t) 2.
Proof.
  intros Et Ec Ei Ht. apply score_after_count; [assumption | lia|].
  rewrite Ec.
  assert (Hc : negb (eq_str (VStr c) (lit "N/A")) && truthy (VStr c) = true).
  { destruct (eq_str (VStr c) (lit "N/A")) eqn:En.
    - cbn [eq_str] in En. apply Extract.str_eqb_eq in En. subst c.
      vm_compute in Ei. discriminate.
    - destruct c; [vm_compute in Ei; discriminate | reflexivity]. }
  rewrite Hc, (capped_count R _ c tweet_count Ei Ht). cbn [try_except].
  rewrite Score.float_1_0, (of_int_exact 5) by lia.
  rewrite unit_scale_halves.
  replace (5 * (2 * half_scale)) with (10 * half_scale) by ring.
  rewrite add_halves_exact by lia. reflexivity.
Qed.

Lemma score_with_capped_count_witness :
  calculate_engagement_score ascii_runtime (topic_and_count (lit "#LiveUpdate") (lit "2.1M"))
  = of_ratio (12 + topic_bonus_halves ascii_runtime (lit "#LiveUpdate")) 2.
Proof.
  apply (score_with_capped_count ascii_runtime _ (lit "#LiveUpdate") (lit "2.1M")
           21000000).
  - reflexivity.
  - reflexivity.
  - reflexivity.
  - split; [lia|]. reflexivity.
Defined.

(** X16.  A count whose digits make a number of 10^313 or more is too large
    for the division by 10000: the failure is swallowed and the count adds
    nothing, so the score is 1 plus the bonuses of the topic, below the
    score of a count of 25000. *)
Theorem score_with_overflowing_count
    (R : runtime) (topic_data : dict value) (t c : str) (tweet_count : Z) :
  get topic_data (lit "topic") (VStr []) = VStr t ->
  get topic_data (lit "count") (VStr (lit "N/A")) = VStr c ->
  int_of_digits R (scorer_digits R c) = Ok tweet_count ->
  10 ^ 313 <= tweet_count ->
  calculate_engagement_score R topic_data = of_ratio (2 + topic_bonus_halves R t) 2.
Proof.
  intros Et Ec Ei Ht. apply score_after_count; [assumption | lia|].
  rewrite Ec, Score.float_1_0, (overflowing_count R _ c tweet_count Ei Ht).
  destruct (negb (eq_str (VStr c) (lit "N/A")) && truthy (VStr c)); reflexivity.
Qed.

Lemma score_with_overflowing_count_witness :
  calculate_engagement_score ascii_runtime
    (topic_and_count (lit "#x") (lit "1" ++ repeat 48 313))
  = of_ratio (2 + topic_bonus_halves ascii_runtime (lit "#x")) 2.
Proof.
  apply (score_with_overflowing_count ascii_runtime _ (lit "#x")
           (lit "1" ++ repeat 48 313) (10 ^ 313)).
  - reflexivity.
  - reflexivity.
  - vm_compute. reflexivity.
  - lia.
Defined.

End ScoreProperties.

(* ================================================================== *)
(** * Further properties: whole-number counts *)
(* ================================================================== *)

Module CountProperties.
Import Exact.

Local Opaque unit_scale.

Lemma digit_bounds (c : codepoint) : is_ascii_digit c = true -> 48 <= c <= 57.
Proof.
  unfold is_ascii_digit. intros H. apply andb_true_iff in H.
  destruct H as [H1 H2]. apply Z.leb_le in H1, H2. lia.
Qed.

Lemma digit_chars_all_digits (ds : list Z) :
  Forall is_digit_value ds -> all_digits (digit_chars ds).
Proof.
  induction 1 as [| d ds Hd _ IH]; cbn [digit_chars map]; constructor; [|exact IH].
  unfold is_digit_value in Hd. unfold is_ascii_digit.
  apply andb_true_iff. split; apply Z.leb_le; lia.
Qed.

Lemma digit_chars_values (ds : list Z) :
  map (fun c => c - 48) (digit_chars ds) = ds.
Proof.
  unfold digit_chars. rewrite map_map. rewrite <- (map_id ds) at 2.
  apply map_ext. intros d. lia.
Qed.

Lemma all_digits_not_in (s : str) (x : codepoint) :
  all_digits s -> is_ascii_digit x = false -> ~ In x s.
Proof.
  intros Hs Hx Hin. unfold all_digits in Hs. rewrite Forall_forall in Hs.
  apply Hs in Hin. congruence.
Qed.

Lemma replace_absent (old : codepoint) (new s : str) :
  ~ In old s -> replace old new s = s.
Proof.
  induction s as [| c s IH]; intros H; [reflexivity|].
  unfold replace in *. cbn [flat_map].
  destruct (Z.eqb_spec c old) as [-> | N]; [exfalso; apply H; now left|].
  cbn [app]. f_equal. apply IH. intros Hin. apply H. now right.
Qed.

Lemma replace_app (old : codepoint) (new a b : str) :
  replace old new (a ++ b) = replace old new a ++ replace old new b.
Proof. unfold replace. apply flat_map_app. Qed.

(** Decide the test of the first conditional of the goal. *)
Ltac settle_test v tac :=
  match goal with
  | |- context [if ?b then _ else _] =>
      let E := fresh "E" in assert (E : b = v) by tac; rewrite E; clear E
  end.

(** Replace the text handed to [float]. *)
Ltac settle_arg t tac :=
  match goal with
  | |- context [float_of_str _ ?a] =>
      let E := fresh "E" in assert (E : a = t) by tac; rewrite E; clear E
  end.

Section WithRuntime.
Variable R : runtime.

Lemma upper_digits (s : str) : all_digits s -> upper R s = s.
Proof.
  induction 1 as [| c s Hc _ IH]; [reflexivity|].
  unfold upper in *. cbn [flat_map]. rewrite IH. apply digit_bounds in Hc.
  unfold upper_cp, is_ascii_lower.
  destruct (Z.ltb_spec c 128); [|lia].
  destruct (Z.leb_spec 97 c); [lia | reflexivity].
Qed.

Lemma upper_app (a b : str) : upper R (a ++ b) = upper R a ++ upper R b.
Proof. unfold upper. apply flat_map_app. Qed.

Lemma isdigit_digits (s : str) : all_digits s -> filter (isdigit R) s = s.
Proof.
  induction 1 as [| c s Hc _ IH]; [reflexivity|].
  cbn [filter]. rewrite IH. unfold isdigit. pose proof (digit_bounds c Hc).
  destruct (Z.ltb_spec c 128); [|lia]. now rewrite Hc.
Qed.

Lemma decimals_digits (s : str) :
  all_digits s -> decimals R s = Some (map (fun c => c - 48) s).
Proof.
  induction 1 as [| c s Hc _ IH]; [reflexivity|].
  cbn [decimals map]. rewrite IH. unfold decimal. pose proof (digit_bounds c Hc).
  destruct (Z.ltb_spec c 128); [|lia]. now rewrite Hc.
Qed.

(** [int] on a text of ASCII digits that is not too long. *)
Lemma int_of_digits_value (s : str) :
  all_digits s -> s <> [] -> (List.length s <= 640)%nat ->
  int_of_digits R s = Ok (digits_value (map (fun c => c - 48) s)).
Proof.
  intros Hs Hne Hlen. unfold int_of_digits.
  destruct s as [| c s]; [congruence|].
  rewrite (decimals_digits (c :: s) Hs).
  destruct (Z.ltb_spec 640 (Z.of_nat (List.length (c :: s)))); [lia|]. reflexivity.
Qed.

Lemma to_ascii_digits (s : str) : all_digits s -> to_ascii R s = s.
Proof.
  intros Hs. unfold to_ascii.
  assert (E : forallb (fun c => c <? 128) s = true).
  { apply forallb_forall. intros c Hc. unfold all_digits in Hs.
    rewrite Forall_forall in Hs. apply Hs, digit_bounds in Hc. apply Z.ltb_lt. lia. }
  now rewrite E.
Qed.

Lemma strip_underscores_digits (s : str) (prev : codepoint) :
  all_digits s -> prev <> 95 -> strip_underscores prev s = Some s.
Proof.
  intros Hs. revert prev. induction Hs as [| c s Hc _ IH]; intros prev Hp;
    cbn [strip_underscores].
  - destruct (Z.eqb_spec prev 95); [contradiction | reflexivity].
  - pose proof (digit_bounds c Hc).
    destruct (Z.eqb_spec c 95); [lia|].
    rewrite Hc. cbn [negb]. rewrite andb_false_r.
    rewrite IH by lia. reflexivity.
Qed.

Lemma lstrip_digits (s : str) : all_digits s -> lstrip s = s.
Proof.
  intros Hs. destruct Hs as [| c s Hc _]; [reflexivity|].
  cbn [lstrip]. pose proof (digit_bounds c Hc). unfold is_ascii_space.
  destruct (Z.leb_spec 9 c); destruct (Z.leb_spec c 13); destruct (Z.eqb_spec c 32);
    try lia; reflexivity.
Qed.

Lemma strip_digits (s : str) : all_digits s -> strip s = s.
Proof.
  intros Hs. unfold strip. rewrite (lstrip_digits s Hs).
  rewrite lstrip_digits; [apply rev_involutive|].
  unfold all_digits. apply Forall_rev. exact Hs.
Qed.

Lemma span_digits_all (s : str) :
  all_digits s -> span_digits s = (map (fun c => c - 48) s, []).
Proof.
  induction 1 as [| c s Hc _ IH]; [reflexivity|].
  cbn [span_digits map]. now rewrite Hc, IH.
Qed.

(** [float] on a text of ASCII digits that spell a number of at most 53
    bits. *)
Lemma float_of_digits (s : str) :
  all_digits s -> s <> [] ->
  digits_value (map (fun c => c - 48) s) < 2 ^ 53 ->
  float_of_str R s
  = Ok (Finite (digits_value (map (fun c => c - 48) s) * unit_scale)).
Proof.
  intros Hs Hne Hv. unfold float_of_str.
  rewrite (to_ascii_digits s Hs), (strip_underscores_digits s 0 Hs) by lia.
  rewrite (strip_digits s Hs).
  destruct s as [| c s]; [congruence|].
  assert (Hc : is_ascii_digit c = true) by (inversion Hs; assumption).
  pose proof (digit_bounds c Hc).
  unfold parse_sign.
  destruct (Z.eqb_spec c 45); [lia|]. destruct (Z.eqb_spec c 43); [lia|].
  unfold parse_decimal. rewrite (span_digits_all (c :: s) Hs).
  rewrite app_nil_r. cbn [map parse_exponent List.length Z.of_nat].
  unfold of_decimal. cbn [Z.sub Z.opp Z.leb Z.compare].
  assert (Hn : 0 <= digits_value (map (fun c0 => c0 - 48) (c :: s))).
  { apply Count.digits_value_nonneg.
    pose proof (Count.span_digits_range (c :: s)) as Hr.
    rewrite (span_digits_all (c :: s) Hs) in Hr. exact Hr. }
  cbn [map] in Hn.
  change (10 ^ 0) with 1. rewrite Z.mul_1_r.
  f_equal. change (round64 (digits_value (c - 48 :: map (fun c0 => c0 - 48) s) * unit_scale) 1)
    with (of_int (digits_value (c - 48 :: map (fun c0 => c0 - 48) s))).
  apply of_int_exact. cbn [map] in Hv. lia.
Qed.

Lemma digits_value_app_zeros (ds : list Z) (k : nat) :
  digits_value (ds ++ repeat 0 k) = digits_value ds * 10 ^ Z.of_nat k.
Proof.
  unfold digits_value. rewrite fold_left_app.
  generalize (fold_left (fun acc d => 10 * acc + d) ds 0). intros v.
  revert v. induction k as [| k IH]; intros v.
  - cbn. lia.
  - cbn [repeat fold_left]. rewrite IH. rewrite Nat2Z.inj_succ, Z.pow_succ_r by lia.
    ring.
Qed.

(** The count of a text made of digits and one multiplier letter. *)
Lemma count_of_scaled_digits (ds : list Z) (letter upper_letter mult : Z) :
  Forall is_digit_value ds -> ds <> [] ->
  upper_cp R letter = [upper_letter] ->
  (upper_letter = 77 /\ mult = 1000000) \/ (upper_letter = 75 /\ mult = 1000) ->
  digits_value ds * mult < 2 ^ 53 ->
  parse_post_count R (digit_chars ds ++ [letter]) = digits_value ds * mult.
Proof.
  intros Hds Hne Hup Hcase Hv.
  pose proof (digit_chars_all_digits ds Hds) as HD.
  set (D := digit_chars ds) in *.
  assert (HDne : D <> []) by (subst D; destruct ds; [congruence | discriminate]).
  assert (Hdv : 0 <= digits_value ds) by now apply Count.digits_value_nonneg.
  assert (Hl : is_ascii_digit letter = false).
  { destruct (is_ascii_digit letter) eqn:El; [|reflexivity]. exfalso.
    pose proof (digit_bounds letter El) as Hb. revert Hup.
    unfold upper_cp, is_ascii_lower.
    destruct (Z.ltb_spec letter 128); [|lia].
    destruct (Z.leb_spec 97 letter); [lia|]. cbn [andb].
    intros E. injection E as E. lia. }
  unfold parse_post_count.
  assert (Ena : Str.eqb (D ++ [letter]) (lit "N/A") = false).
  { destruct D as [| c D']; [congruence|]. inversion HD as [| ? ? Hc _]; subst.
    pose proof (digit_bounds c Hc). cbn [app]. change (lit "N/A") with [78; 47; 65].
    cbn [Str.eqb]. destruct (Z.eqb_spec c 78); [lia | reflexivity]. }
  rewrite Ena. destruct (D ++ [letter]) eqn:Eapp; [destruct D; discriminate|].
  rewrite <- Eapp. clear Eapp. cbn [orb].
  unfold post_count_body.
  assert (Hcomma : replace (chr ",") [] (D ++ [letter]) = D ++ [letter]).
  { apply replace_absent. intros Hin.
    apply in_app_or in Hin. destruct Hin as [Hin | [E | []]].
    - revert Hin. apply all_digits_not_in; [assumption | reflexivity].
    - rewrite E in Hup. cbv in Hup. injection Hup as Hup.
      destruct Hcase as [[? _] | [? _]]; lia. }
  rewrite Hcomma, upper_app, (upper_digits D HD). cbn [upper flat_map].
  rewrite Hup. cbn [app].
  assert (Hrm : forall x, is_ascii_digit x = false ->
                          replace x [] (D ++ [x]) = D).
  { intros x Hx. rewrite replace_app, (replace_absent x [] D).
    - unfold replace. cbn [flat_map]. rewrite Z.eqb_refl. cbn [app].
      apply app_nil_r.
    - now apply all_digits_not_in. }
  assert (Hfl : float_of_str R D = Ok (Finite (digits_value ds * unit_scale))).
  { rewrite (float_of_digits D HD HDne); subst D; rewrite digit_chars_values;
      [reflexivity|].
    destruct Hcase as [[_ ->] | [_ ->]]; lia. }
  change (lit "M") with [77]. change (lit "K") with [75].
  change (chr "M") with 77. change (chr "K") with 75.
  destruct Hcase as [[-> ->] | [-> ->]].
  - settle_test true ltac:(apply TextProperties.contains_app_r; reflexivity).
    settle_arg D ltac:(apply (Hrm 77); reflexivity).
    rewrite Hfl. cbn [bind].
    rewrite (of_int_exact 1000000) by lia. rewrite mul_exact by lia.
    cbn [int_of_float try_except]. apply trunc_exact.
  - settle_test false
      ltac:(apply TextProperties.not_in_contains; intros Hin;
            apply in_app_or in Hin; destruct Hin as [Hin | [E | []]];
            [revert Hin; apply all_digits_not_in; [assumption | reflexivity]
            | discriminate]).
    settle_test true ltac:(apply TextProperties.contains_app_r; reflexivity).
    settle_arg D ltac:(apply (Hrm 75); reflexivity).
    rewrite Hfl. cbn [bind].
    rewrite (of_int_exact 1000) by lia. rewrite mul_exact by lia.
    cbn [int_of_float try_except]. apply trunc_exact.
Qed.

End WithRuntime.
End CountProperties.

Module CountTheorems.
Import Exact CountProperties.

Lemma comma_or_digit_cases (c : codepoint) :
  is_comma_or_digit c = true -> c = 44 \/ is_ascii_digit c = true.
Proof.
  unfold is_comma_or_digit. intros H. apply orb_true_iff in H.
  destruct H as [H | H]; [left; now apply Z.eqb_eq | now right].
Qed.

Lemma remove_commas (s : str) :
  Forall (fun c => is_comma_or_digit c = true) s ->
  replace (chr ",") [] s = filter is_ascii_digit s.
Proof.
  induction 1 as [| c s Hc _ IH]; [reflexivity|].
  unfold replace in *. cbn [flat_map filter]. rewrite IH.
  change (chr ",") with 44.
  destruct (comma_or_digit_cases c Hc) as [-> | Hd].
  - reflexivity.
  - rewrite Hd. pose proof (digit_bounds c Hd).
    destruct (Z.eqb_spec c 44); [lia | reflexivity].
Qed.

Lemma filter_digits_all_digits (s : str) : all_digits (filter is_ascii_digit s).
Proof.
  unfold all_digits. apply Forall_forall. intros c Hc.
  apply filter_In in Hc. tauto.
Qed.

Lemma comma_or_digit_not_in (s : str) (x : codepoint) :
  Forall (fun c => is_comma_or_digit c = true) s ->
  is_comma_or_digit x = false -> ~ In x s.
Proof.
  intros Hs Hx Hin. rewrite Forall_forall in Hs. apply Hs in Hin. congruence.
Qed.

Section WithRuntime.
Variable R : runtime.

Lemma scorer_digits_of_digits_and_commas (s : str) :
  Forall (fun c => is_comma_or_digit c = true) s ->
  scorer_digits R s = filter is_ascii_digit s.
Proof.
  intros Hs. unfold scorer_digits.
  rewrite (replace_absent (chr "K")), (replace_absent (chr "M"));
    try (apply comma_or_digit_not_in; [assumption | reflexivity]).
  rewrite (remove_commas s Hs). apply isdigit_digits, filter_digits_all_digits.
Qed.

Lemma scorer_digits_of_scaled (ds : list Z) (letter : codepoint) (zeros : nat) :
  Forall is_digit_value ds ->
  (letter = 75 /\ zeros = 3%nat) \/ (letter = 77 /\ zeros = 6%nat) ->
  scorer_digits R (digit_chars ds ++ [letter]) = digit_chars (ds ++ repeat 0 zeros).
Proof.
  intros Hds Hcase. pose proof (digit_chars_all_digits ds Hds) as HD.
  assert (HZ : all_digits (digit_chars (ds ++ repeat 0 zeros))).
  { apply digit_chars_all_digits, Forall_app. split; [assumption|].
    apply Forall_forall. intros d Hd. apply repeat_spec in Hd. subst d.
    unfold is_digit_value. lia. }
  unfold scorer_digits. change (chr "K") with 75. change (chr "M") with 77.
  change (chr ",") with 44. change (lit "000") with (digit_chars (repeat 0 3)).
  change (lit "000000") with (digit_chars (repeat 0 6)).
  assert (Hno : forall x, is_ascii_digit x = false -> ~ In x (digit_chars ds))
    by (intros x Hx; now apply all_digits_not_in).
  assert (Hnz : forall x, is_ascii_digit x = false ->
                          ~ In x (digit_chars (ds ++ repeat 0 zeros)))
    by (intros x Hx; now apply all_digits_not_in).
  assert (Hone : forall new, replace letter new (digit_chars ds ++ [letter])
                             = digit_chars ds ++ new).
  { intros new. rewrite replace_app, (replace_absent letter new (digit_chars ds)).
    - unfold replace. cbn [flat_map]. rewrite Z.eqb_refl. now rewrite app_nil_r.
    - apply Hno. destruct Hcase as [[-> _] | [-> _]]; reflexivity. }
  assert (Happ : digit_chars (ds ++ repeat 0 zeros)
                 = digit_chars ds ++ digit_chars (repeat 0 zeros))
    by (unfold digit_chars; apply map_app).
  rewrite Happ in *. clear Happ.
  destruct Hcase as [[-> ->] | [-> ->]].
  - rewrite Hone.
    pose proof HZ as HZ'.
    rewrite (replace_absent 77), (replace_absent 44);
      try (apply all_digits_not_in; [assumption | reflexivity]).
    now apply isdigit_digits.
  - rewrite (replace_absent 75).
    2:{ intros Hin. apply in_app_or in Hin. destruct Hin as [Hin | [E | []]];
          [revert Hin; now apply Hno | discriminate]. }
    rewrite Hone.
    pose proof HZ as HZ'.
    rewrite (replace_absent 44);
      try (apply all_digits_not_in; [assumption | reflexivity]).
    now apply isdigit_digits.
Qed.

End WithRuntime.

Lemma guard_of_digits_and_commas (s : str) :
  Forall (fun c => is_comma_or_digit c = true) s ->
  digits_of s <> [] ->
  Str.eqb s (lit "N/A") || match s with [] => true | _ => false end = false.
Proof.
  intros Hs Hne.
  assert (Enil : match s with [] => true | _ :: _ => false end = false)
    by (destruct s; [now destruct Hne | reflexivity]).
  assert (Ena : Str.eqb s (lit "N/A") = false).
  { destruct (Str.eqb s (lit "N/A")) eqn:E; [|reflexivity].
    apply Extract.str_eqb_eq in E. subst s. inversion Hs as [| ? ? Hc _].
    discriminate Hc. }
  now rewrite Ena, Enil.
Qed.

(** The body of the parser on digits and separators: no [M], no [K], and
    [int] of the digits. *)
Lemma post_count_body_of_digits_and_commas (R : runtime) (s : str) :
  Forall (fun c => is_comma_or_digit c = true) s ->
  digits_of s <> [] ->
  (List.length (digits_of s) <= 640)%nat ->
  post_count_body R s = Ok (digits_value (digits_of s)).
Proof.
  intros Hs Hne Hlen. unfold digits_of in *. rewrite length_map in Hlen.
  unfold post_count_body. rewrite (remove_commas s Hs).
  remember (filter is_ascii_digit s) as D eqn:ED.
  assert (HD : all_digits D) by (subst D; apply filter_digits_all_digits).
  assert (HDne : D <> []) by (intros E; apply Hne; now rewrite E).
  clear ED Hs. rewrite (upper_digits R D HD).
  settle_test false ltac:(apply TextProperties.not_in_contains;
                          apply all_digits_not_in; [assumption | reflexivity]).
  settle_test false ltac:(apply TextProperties.not_in_contains;
                          apply all_digits_not_in; [assumption | reflexivity]).
  rewrite (isdigit_digits R D HD). now apply int_of_digits_value.
Qed.

(** X17.  A count written with ASCII digits and thousands separators only
    (at least one digit, at most 640) is the number its digits spell. *)
Theorem count_of_digits_and_commas (R : runtime) (s : str) :
  Forall (fun c => is_comma_or_digit c = true) s ->
  digits_of s <> [] ->
  (List.length (digits_of s) <= 640)%nat ->
  parse_post_count R s = digits_value (digits_of s).
Proof.
  intros Hs Hne Hlen. unfold parse_post_count.
  rewrite (guard_of_digits_and_commas s Hs Hne).
  rewrite (post_count_body_of_digits_and_commas R s Hs Hne Hlen).
  reflexivity.
Qed.

Lemma count_of_digits_and_commas_witness :
  parse_post_count ascii_runtime (lit "1,234,567") = digits_value (digits_of (lit "1,234,567")).
Proof.
  apply (count_of_digits_and_commas ascii_runtime (lit "1,234,567")).
  - repeat constructor.
  - discriminate.
  - apply Nat.leb_le. reflexivity.
Defined.

(** X18.  A whole number followed by [K] or [k] counts a thousand times
    the number, followed by [M] or [m] a million times: the float
    arithmetic is exact as long as the result is below 2^53. *)
Theorem count_with_multiplier (R : runtime) (ds : list Z) :
  Forall is_digit_value ds -> ds <> [] ->
  digits_value ds * 1000000 < 2 ^ 53 ->
  parse_post_count R (digit_chars ds ++ lit "K") = digits_value ds * 1000
  /\ parse_post_count R (digit_chars ds ++ lit "k") = digits_value ds * 1000
  /\ parse_post_count R (digit_chars ds ++ lit "M") = digits_value ds * 1000000
  /\ parse_post_count R (digit_chars ds ++ lit "m") = digits_value ds * 1000000.
Proof.
  intros Hds Hne Hv.
  assert (0 <= digits_value ds) by now apply Count.digits_value_nonneg.
  conjuncts.
  - apply (count_of_scaled_digits R ds 75 75 1000); auto; lia.
  - apply (count_of_scaled_digits R ds 107 75 1000); auto; lia.
  - apply (count_of_scaled_digits R ds 77 77 1000000); auto; lia.
  - apply (count_of_scaled_digits R ds 109 77 1000000); auto; lia.
Qed.

Lemma count_with_multiplier_witness :
  parse_post_count ascii_runtime (digit_chars [2; 5] ++ lit "K") = digits_value [2; 5] * 1000.
Proof.
  apply (count_with_multiplier ascii_runtime [2; 5]).
  - repeat constructor; unfold is_digit_value; lia.
  - discriminate.
  - reflexivity.
Defined.

(** X19.  On whole numbers the scorer reads the count as the count parser
    does: on a text of digits and thousands separators, and on a whole
    number followed by an upper-case [K] or [M]. *)
Theorem scorer_agrees_on_whole_counts (R : runtime) :
  (forall s,
      Forall (fun c => is_comma_or_digit c = true) s ->
      digits_of s <> [] -> (List.length (digits_of s) <= 640)%nat ->
      int_of_digits R (scorer_digits R s) = Ok (parse_post_count R s))
  /\ (forall ds,
         Forall is_digit_value ds -> ds <> [] -> (List.length ds <= 600)%nat ->
         digits_value ds * 1000000 < 2 ^ 53 ->
         int_of_digits R (scorer_digits R (digit_chars ds ++ lit "K"))
         = Ok (parse_post_count R (digit_chars ds ++ lit "K"))
         /\ int_of_digits R (scorer_digits R (digit_chars ds ++ lit "M"))
            = Ok (parse_post_count R (digit_chars ds ++ lit "M"))).
Proof.
  split.
  - intros s Hs Hne Hlen.
    unfold parse_post_count.
    rewrite (guard_of_digits_and_commas s Hs Hne).
    rewrite (post_count_body_of_digits_and_commas R s Hs Hne Hlen).
    cbn [try_except]. rewrite (scorer_digits_of_digits_and_commas R s Hs).
    unfold digits_of in *. rewrite length_map in Hlen.
    apply int_of_digits_value; [apply filter_digits_all_digits | | assumption].
    intros E. apply Hne. now rewrite E.
  - intros ds Hds Hne Hlen Hv.
    assert (Hv0 : 0 <= digits_value ds) by now apply Count.digits_value_nonneg.
    assert (EK : parse_post_count R (digit_chars ds ++ lit "K") = digits_value ds * 1000)
      by (apply (count_of_scaled_digits R ds 75 75 1000); auto; lia).
    assert (EM : parse_post_count R (digit_chars ds ++ lit "M")
                 = digits_value ds * 1000000)
      by (apply (count_of_scaled_digits R ds 77 77 1000000); auto; lia).
    rewrite EK, EM.
    assert (Hz : forall k, Forall is_digit_value (ds ++ repeat 0 k)).
    { intros k. apply Forall_app. split; [assumption|].
      apply Forall_forall. intros d Hd. apply repeat_spec in Hd. subst d.
      unfold is_digit_value. lia. }
    assert (Hint : forall k, (k <= 6)%nat ->
               int_of_digits R (digit_chars (ds ++ repeat 0 k))
               = Ok (digits_value ds * 10 ^ Z.of_nat k)).
    { intros k Hk. rewrite int_of_digits_value.
      - now rewrite digit_chars_values, digits_value_app_zeros.
      - now apply digit_chars_all_digits.
      - destruct ds; [congruence | discriminate].
      - unfold digit_chars. rewrite length_map, length_app, repeat_length. lia. }
    pose proof (scorer_digits_of_scaled R ds 75 3 Hds
                  (or_introl (conj eq_refl eq_refl))) as SK.
    pose proof (scorer_digits_of_scaled R ds 77 6 Hds
                  (or_intror (conj eq_refl eq_refl))) as SM.
    change (scorer_digits R (digit_chars ds ++ lit "K")
            = digit_chars (ds ++ repeat 0 3)) in SK.
    change (scorer_digits R (digit_chars ds ++ lit "M")
            = digit_chars (ds ++ repeat 0 6)) in SM.
    rewrite SK, SM, !Hint by lia. split; reflexivity.
Qed.

Lemma scorer_agrees_on_whole_counts_witness :
  int_of_digits ascii_runtime (scorer_digits ascii_runtime (lit "1,234"))
  = Ok (parse_post_count ascii_runtime (lit "1,234"))
  /\ int_of_digits ascii_runtime (scorer_digits ascii_runtime (digit_chars [5; 0] ++ lit "K"))
     = Ok (parse_post_count ascii_runtime (digit_chars [5; 0] ++ lit "K")).
Proof.
  split.
  - apply (proj1 (scorer_agrees_on_whole_counts ascii_runtime) (lit "1,234")).
    + repeat constructor.
    + discriminate.
    + apply Nat.leb_le. reflexivity.
  - apply (proj2 (scorer_agrees_on_whole_counts ascii_runtime) [5; 0]).
    + repeat constructor; unfold is_digit_value; lia.
    + discriminate.
    + apply Nat.leb_le. reflexivity.
    + reflexivity.
Defined.

End CountTheorems.

(* ================================================================== *)
(** * One run: the extraction, the rows and the requests *)
(* ================================================================== *)

Module RunProperties.

Lemma filter_all_false {A : Type} (f : A -> bool) (l : list A) :
  Forall (fun x => f x = false) l -> filter f l = [].
Proof.
  induction 1 as [| x l Hx _ IH]; [reflexivity|]. cbn [filter]. now rewrite Hx.
Qed.

Lemma filter_all_true {A : Type} (f : A -> bool) (l : list A) :
  Forall (fun x => f x = true) l -> filter f l = l.
Proof.
  induction 1 as [| x l Hx _ IH]; [reflexivity|]. cbn [filter]. now rewrite Hx, IH.
Qed.

Lemma filter_filter_negb {A : Type} (f : A -> bool) (l : list A) :
  filter f (filter (fun x => negb (f x)) l) = [].
Proof.
  apply filter_all_false, Forall_forall. intros x Hx. apply filter_In in Hx.
  destruct Hx as [_ Hx]. now destruct (f x).
Qed.

Lemma filter_idempotent {A : Type} (f : A -> bool) (l : list A) :
  filter f (filter f l) = filter f l.
Proof.
  apply filter_all_true, Forall_forall. intros x Hx. apply filter_In in Hx. tauto.
Qed.

Section WithRun.
Variable R : runtime.
Variable fetch_trend_links : str -> result (list trend_link).
Variable textblob_polarity : str -> result float.
Variable SCRAPE_VERSION_ID : str.

Lemma main_requests :
  main R fetch_trend_links textblob_polarity SCRAPE_VERSION_ID
  = match get_trending_topics R fetch_trend_links with
    | [] => []
    | topics =>
        [DeleteWherePlatform (lit "Twitter");
         InsertRows (map (process_topic R textblob_polarity SCRAPE_VERSION_ID) topics)]
    end.
Proof.
  unfold main. cbv zeta.
  destruct (get_trending_topics R fetch_trend_links) as [| t l] eqn:E;
    [reflexivity|].
  unfold insert_fresh_data_only. now rewrite Pipeline.processed_topics_map.
Qed.

Lemma rows_are_twitter (topics : list RawTrend) :
  Forall (fun r => Str.eqb (platform r) (lit "Twitter") = true)
    (map (process_topic R textblob_polarity SCRAPE_VERSION_ID) topics).
Proof.
  apply Forall_forall. intros r Hr. apply in_map_iff in Hr.
  destruct Hr as (t & <- & _).
  destruct (Pipeline.process_topic_fields R textblob_polarity SCRAPE_VERSION_ID t)
    as (-> & _). reflexivity.
Qed.

Lemma main_on_table (table : list EnrichedTrend) :
  apply_store_ops (main R fetch_trend_links textblob_polarity SCRAPE_VERSION_ID) table
  = match get_trending_topics R fetch_trend_links with
    | [] => table
    | topics =>
        filter (fun r => negb (Str.eqb (platform r) (lit "Twitter"))) table
          ++ map (process_topic R textblob_polarity SCRAPE_VERSION_ID) topics
    end.
Proof.
  rewrite main_requests. destruct (get_trending_topics R fetch_trend_links);
    reflexivity.
Qed.

End WithRun.

(** X20.  The rows of a run.  When the extraction is empty the run asks
    nothing of the table; otherwise it asks for one delete of the rows
    tagged ["Twitter"] followed by one insert.  The inserted rows are at
    most nine, one per extracted topic; their hashtags are pairwise
    distinct and start with [#]; each is tagged ["Twitter"], carries the
    identifier of the run, the search link made of its own hashtag, and a
    raw count that is not the empty text. *)
Theorem run_rows_well_formed
    (R : runtime) (fetch_trend_links : str -> result (list trend_link))
    (textblob_polarity : str -> result float) (SCRAPE_VERSION_ID : str) :
  let topics := get_trending_topics R fetch_trend_links in
  let rows := map (process_topic R textblob_polarity SCRAPE_VERSION_ID) topics in
  main R fetch_trend_links textblob_polarity SCRAPE_VERSION_ID
  = match topics with
    | [] => []
    | _ => [DeleteWherePlatform (lit "Twitter"); InsertRows rows]
    end
  /\ (List.length rows <= 9)%nat
  /\ NoDup (map topic_hashtag rows)
  /\ Forall (fun r =>
               platform r = lit "Twitter"
               /\ version_id r = SCRAPE_VERSION_ID
               /\ startswith (lit "#") (topic_hashtag r) = true
               /\ md_twitter_link (metadata r)
                  = generate_twitter_search_link (topic_hashtag r)
               /\ md_raw_count (metadata r) <> [])
       rows.
Proof.
  cbv zeta. split.
  { rewrite main_requests. now destruct (get_trending_topics R fetch_trend_links). }
  apply (Extract.get_trending_topics_invariant R fetch_trend_links
           (fun acc =>
              let rows := map (process_topic R textblob_polarity SCRAPE_VERSION_ID) acc in
              (List.length rows <= 9)%nat
              /\ NoDup (map topic_hashtag rows)
              /\ Forall (fun r =>
                           platform r = lit "Twitter"
                           /\ version_id r = SCRAPE_VERSION_ID
                           /\ startswith (lit "#") (topic_hashtag r) = true
                           /\ md_twitter_link (metadata r)
                              = generate_twitter_search_link (topic_hashtag r)
                           /\ md_raw_count (metadata r) <> [])
                   rows)).
  - cbn. split; [lia|]. split; constructor.
  - cbv zeta. intros acc link (Hlen & Hnd & Hall) Hlt Hnew Hhash _.
    assert (Etopics : forall l,
               map topic_hashtag (map (process_topic R textblob_polarity SCRAPE_VERSION_ID) l)
               = map topic l).
    { intros l. rewrite map_map. apply map_ext. intros t.
      destruct (Pipeline.process_topic_fields R textblob_polarity SCRAPE_VERSION_ID t)
        as (_ & H & _). exact H. }
    rewrite Etopics in *. rewrite !map_app, !length_app, !length_map in *.
    cbn [map List.length].
    split; [lia|]. split.
    + apply NoDup_app; repeat split; auto.
      * constructor; [intros [] | constructor].
      * intros x Hx [<- | []]. now apply Hnew.
    + apply Forall_app. split; [assumption|]. constructor; [|constructor].
      destruct (Pipeline.process_topic_fields R textblob_polarity SCRAPE_VERSION_ID
                  (topic_of_link R link))
        as (H1 & H2 & _ & H4 & _ & _ & _ & H8 & H9 & _).
      rewrite H1, H2, H4, H8, H9.
      cbn [topic_of_link topic twitter_link count].
      split; [reflexivity|]. split; [reflexivity|]. split; [assumption|].
      split; [reflexivity | apply ExtractProperties.tweet_count_nonempty].
Qed.

(** X21.  What a run does to the table, when the table carries out each
    request: the rows of other platforms stay as they are, in their order;
    a run that extracted nothing leaves the whole table as it is; a run
    that extracted topics leaves, tagged ["Twitter"], exactly its own
    rows. *)
Theorem run_replaces_twitter_rows
    (R : runtime) (fetch_trend_links : str -> result (list trend_link))
    (textblob_polarity : str -> result float) (SCRAPE_VERSION_ID : str)
    (table : list EnrichedTrend) :
  let topics := get_trending_topics R fetch_trend_links in
  let rows := map (process_topic R textblob_polarity SCRAPE_VERSION_ID) topics in
  let table' :=
    apply_store_ops (main R fetch_trend_links textblob_polarity SCRAPE_VERSION_ID)
      table in
  filter (fun r => negb (Str.eqb (platform r) (lit "Twitter"))) table'
  = filter (fun r => negb (Str.eqb (platform r) (lit "Twitter"))) table
  /\ (topics = [] -> table' = table)
  /\ (topics <> [] ->
      filter (fun r => Str.eqb (platform r) (lit "Twitter")) table' = rows).
Proof.
  cbv zeta. rewrite main_on_table.
  destruct (get_trending_topics R fetch_trend_links) as [| t l] eqn:E.
  - split; [reflexivity|]. split; [reflexivity | congruence].
  - pose proof (rows_are_twitter R textblob_polarity SCRAPE_VERSION_ID (t :: l))
      as Hrows.
    split; [|split; [discriminate|]].
    + rewrite filter_app, filter_idempotent, (filter_all_false _ (map _ _)).
      * apply app_nil_r.
      * eapply Forall_impl; [|exact Hrows]. cbv beta. intros r ->. reflexivity.
    + intros _. rewrite filter_app, filter_filter_negb, (filter_all_true _ (map _ _));
        [reflexivity | exact Hrows].
Qed.

(** X22.  Running twice on the same pages is running once: the second run
    deletes the rows of the first and inserts the same rows again. *)
Theorem run_twice_is_run_once
    (R : runtime) (fetch_trend_links : str -> result (list trend_link))
    (textblob_polarity : str -> result float) (SCRAPE_VERSION_ID : str)
    (table : list EnrichedTrend) :
  let run := apply_store_ops
               (main R fetch_trend_links textblob_polarity SCRAPE_VERSION_ID) in
  run (run table) = run table.
Proof.
  cbv zeta. rewrite !main_on_table.
  destruct (get_trending_topics R fetch_trend_links) as [| t l] eqn:E;
    [reflexivity|].
  pose proof (rows_are_twitter R textblob_polarity SCRAPE_VERSION_ID (t :: l))
    as Hrows.
  rewrite filter_app, filter_idempotent, (filter_all_false _ (map _ _)).
  - now rewrite app_nil_r.
  - eapply Forall_impl; [|exact Hrows]. cbv beta. intros r ->. reflexivity.
Qed.

End RunProperties.

(* ================================================================== *)
(** * Counts without a digit *)
(* ================================================================== *)

Module CountWithoutDigit.
Import Exact.

Lemma span_digits_no_digit (t : str) :
  (forall c, In c t -> is_ascii_digit c = false) -> span_digits t = ([], t).
Proof.
  destruct t as [| c t]; [reflexivity|]. intros H. cbn [span_digits].
  now rewrite (H c (or_introl eq_refl)).
Qed.

Lemma parse_decimal_no_digit (t : str) :
  (forall c, In c t -> is_ascii_digit c = false) -> parse_decimal t = None.
Proof.
  intros H. unfold parse_decimal. rewrite (span_digits_no_digit t H).
  destruct t as [| c r]; [reflexivity|].
  destruct (c =? 46); [|reflexivity].
  rewrite (span_digits_no_digit r); [reflexivity|].
  intros d Hd. apply H. now right.
Qed.

Lemma parse_sign_incl (b t : str) (neg : bool) (c : codepoint) :
  parse_sign b = (neg, t) -> In c t -> In c b.
Proof.
  destruct b as [| d b]; cbn [parse_sign].
  - intros E. injection E as _ <-. auto.
  - destruct (d =? 45); [intros E; injection E as _ <-; now right|].
    destruct (d =? 43); intros E; injection E as _ <-; [now right | auto].
Qed.

Section WithRuntime.
Variable R : runtime.

Lemma to_ascii_of_ascii (s : str) :
  (forall c, In c s -> c < 128) -> to_ascii R s = s.
Proof.
  intros H. unfold to_ascii.
  assert (E : forallb (fun c => c <? 128) s = true).
  { apply forallb_forall. intros c Hc. apply Z.ltb_lt. now apply H. }
  now rewrite E.
Qed.

(** Without a digit, [float] gives an infinity, a not-a-number or an
    error. *)
Lemma float_without_digit (x : str) :
  (forall c, In c x -> c < 128 /\ is_ascii_digit c = false) ->
  match float_of_str R x with
  | Ok (Finite _) => False
  | _ => True
  end.
Proof.
  intros H. unfold float_of_str.
  rewrite to_ascii_of_ascii by (intros c Hc; now apply H).
  destruct (strip_underscores 0 x) as [a |] eqn:Ea; [|exact I].
  destruct (strip a) as [| b0 b] eqn:Eb; [exact I|].
  destruct (parse_sign (b0 :: b)) as [neg t] eqn:Et.
  rewrite parse_decimal_no_digit.
  - destruct (_ || _); [exact I|]. destruct (Str.eqb _ _); exact I.
  - intros c Hc. apply H.
    apply (Count.strip_underscores_incl x a 0 c Ea).
    apply Count.strip_incl. rewrite Eb.
    now apply (parse_sign_incl (b0 :: b) t neg c Et).
Qed.

Lemma scaled_without_digit (x : str) (k : Z) :
  (forall c, In c x -> c < 128 /\ is_ascii_digit c = false) ->
  0 < k < 2 ^ 53 ->
  exists e, (v <- float_of_str R x ;; int_of_float (mul v (of_int k))) = Raise e.
Proof.
  intros H Hk. pose proof (float_without_digit x H) as Hx.
  rewrite of_int_exact by lia.
  assert (Hu : (k * unit_scale =? 0) = false).
  { apply Z.eqb_neq. pose proof half_scale_pos. rewrite unit_scale_halves. nia. }
  destruct (float_of_str R x) as [[u | s |] | e]; cbn [bind].
  - destruct Hx.
  - cbn [mul]. rewrite Hu. eexists. reflexivity.
  - eexists. reflexivity.
  - eexists. reflexivity.
Qed.

Lemma upper_without_digit (s : str) (c : codepoint) :
  (forall d, In d s -> d < 128 /\ is_ascii_digit d = false) ->
  In c (upper R s) -> c < 128 /\ is_ascii_digit c = false.
Proof.
  intros H Hc. unfold upper in Hc. apply in_flat_map in Hc.
  destruct Hc as (d & Hd & Hc). destruct (H d Hd) as [Hlt Hnd].
  unfold upper_cp in Hc. destruct (Z.ltb_spec d 128); [|lia].
  destruct Hc as [<- | []].
  unfold is_ascii_lower, is_ascii_digit in *.
  destruct (Z.leb_spec 97 d), (Z.leb_spec d 122); cbn [andb]; try (split; [lia | assumption]).
  split; [lia|]. destruct (Z.leb_spec 48 (d - 32)), (Z.leb_spec (d - 32) 57);
    cbn [andb]; try reflexivity; lia.
Qed.

Lemma post_count_body_without_digit (s : str) :
  (forall c, In c s -> c < 128 /\ is_ascii_digit c = false) ->
  exists e, post_count_body R s = Raise e.
Proof.
  intros H.
  assert (Hclean : forall c, In c (replace (chr ",") [] s) ->
                             c < 128 /\ is_ascii_digit c = false).
  { intros c Hc. apply Count.in_replace in Hc. destruct Hc as [[] | Hc]. now apply H. }
  assert (Hup : forall old c,
             In c (replace old [] (upper R (replace (chr ",") [] s))) ->
             c < 128 /\ is_ascii_digit c = false).
  { intros old c Hc. apply Count.in_replace in Hc. destruct Hc as [[] | Hc].
    now apply (upper_without_digit (replace (chr ",") [] s)). }
  unfold post_count_body. cbv zeta.
  destruct (contains (lit "M") _).
  - apply scaled_without_digit; [apply Hup | lia].
  - destruct (contains (lit "K") _).
    + apply scaled_without_digit; [apply Hup | lia].
    + assert (E : filter (isdigit R) (replace (chr ",") [] s) = []).
      { apply RunProperties.filter_all_false, Forall_forall. intros c Hc.
        destruct (Hclean c Hc) as [Hlt Hnd]. unfold isdigit.
        destruct (Z.ltb_spec c 128); [assumption | lia]. }
      rewrite E. eexists. reflexivity.
Qed.

End WithRuntime.

(** X23.  An ASCII count without a digit is 0, whatever else it holds:
    [float] then gives an error, or an infinity or a not-a-number that
    [int] refuses, and a text without [K] and [M] leaves [int] nothing to
    read. *)
Theorem count_without_digit_is_zero (R : runtime) (count_str : str) :
  Forall (fun c => c < 128 /\ is_ascii_digit c = false) count_str ->
  parse_post_count R count_str = 0.
Proof.
  intros H. rewrite Forall_forall in H. unfold parse_post_count.
  destruct (_ || _); [reflexivity|].
  destruct (post_count_body_without_digit R count_str H) as [e ->]. reflexivity.
Qed.

Lemma count_without_digit_is_zero_witness :
  parse_post_count ascii_runtime (lit "infM") = 0
  /\ parse_post_count ascii_runtime (lit "nanK") = 0
  /\ parse_post_count ascii_runtime (lit "-.k") = 0.
Proof.
  split; [|split].
  - apply (count_without_digit_is_zero ascii_runtime (lit "infM")).
    repeat constructor.
  - apply (count_without_digit_is_zero ascii_runtime (lit "nanK")).
    repeat constructor.
  - apply (count_without_digit_is_zero ascii_runtime (lit "-.k")).
    repeat constructor.
Defined.

End CountWithoutDigit.

(* ================================================================== *)
(** * The texts the run hands on *)
(* ================================================================== *)

Module HandedTexts.

Lemma startswith_refl (s : str) : startswith s s = true.
Proof.
  induction s as [| c s IH]; cbn [startswith]; [reflexivity|].
  now rewrite Z.eqb_refl, IH.
Qed.

Lemma contains_refl (s : str) : contains s s = true.
Proof. rewrite Pipeline.contains_unfold, startswith_refl. reflexivity. Qed.

Section WithRuntime.
Variable R : runtime.

Lemma lstrip_blanks_head (c : codepoint) (s : str) :
  isspace R c = false -> lstrip_blanks R (c :: s) = c :: s.
Proof. intros H. cbn [lstrip_blanks]. now rewrite H. Qed.

Lemma lstrip_blanks_cases (s : str) :
  lstrip_blanks R s = []
  \/ exists c r, lstrip_blanks R s = c :: r /\ isspace R c = false.
Proof.
  induction s as [| c s IH]; cbn [lstrip_blanks]; [now left|].
  destruct (isspace R c) eqn:E; [exact IH|]. right. now exists c, s.
Qed.

Lemma lstrip_blanks_idempotent (s : str) :
  lstrip_blanks R (lstrip_blanks R s) = lstrip_blanks R s.
Proof.
  destruct (lstrip_blanks_cases s) as [-> | (c & r & -> & H)]; [reflexivity|].
  now apply lstrip_blanks_head.
Qed.

Lemma lstrip_blanks_suffix (s : str) : exists pre, s = pre ++ lstrip_blanks R s.
Proof.
  induction s as [| c s [pre IH]]; cbn [lstrip_blanks]; [now exists []|].
  destruct (isspace R c); [|now exists []].
  exists (c :: pre). cbn [app]. now rewrite <- IH.
Qed.

(** Stripping a stripped text changes nothing. *)
Lemma str_strip_idempotent (s : str) :
  str_strip R (str_strip R s) = str_strip R s.
Proof.
  unfold str_strip.
  set (a := lstrip_blanks R s).
  set (b := lstrip_blanks R (rev a)).
  assert (Hb : lstrip_blanks R b = b) by apply lstrip_blanks_idempotent.
  assert (Hx : lstrip_blanks R (rev b) = rev b).
  { destruct (lstrip_blanks_suffix (rev a)) as [pre Hpre]. fold b in Hpre.
    assert (Ha : a = rev b ++ rev pre).
    { rewrite <- rev_app_distr, <- Hpre. now rewrite rev_involutive. }
    destruct (rev b) as [| x xs] eqn:Erb; [reflexivity|].
    destruct (lstrip_blanks_cases s) as [E | (c & r & E & Hc)]; fold a in E.
    - rewrite E in Ha. discriminate Ha.
    - rewrite E in Ha. cbn [app] in Ha. injection Ha as -> _.
      now apply lstrip_blanks_head. }
  now rewrite Hx, rev_involutive, Hb.
Qed.

Lemma str_strip_not_available : str_strip R (lit "N/A") = lit "N/A".
Proof. reflexivity. Qed.

Lemma tweet_count_stripped (link : trend_link) :
  str_strip R (tweet_count_of R link) = tweet_count_of R link.
Proof.
  unfold tweet_count_of.
  destruct (parent_li link) as [[span_text |] |]; try apply str_strip_not_available.
  destruct (str_strip R span_text) as [| c r] eqn:E;
    [apply str_strip_not_available|].
  rewrite <- E. apply str_strip_idempotent.
Qed.

End WithRuntime.

(** X24.  Every synthesized content embeds the topic stripped of its
    [#] marks, whichever template is chosen. *)
Theorem content_mentions_topic (R : runtime) (hashtag : str) :
  contains (replace (chr "#") [] hashtag) (get_hashtag_post_content R hashtag) = true.
Proof.
  pose proof (Pipeline.content_is_first_match_or_default R hashtag) as E.
  cbv zeta in E. rewrite E. clear E.
  set (clean := replace (chr "#") [] hashtag). clearbody clean.
  assert (T : forall a b : str, contains clean (a ++ clean ++ b) = true)
    by (intros a b; apply TextProperties.contains_infix_of, contains_refl).
  unfold sample_contents, default_content. cbn [first_match].
  repeat match goal with
         | |- context [if ?b then _ else _] => destruct b
         end;
    apply T.
Qed.

(** X25.  The extractor hands on stripped texts: stripping the topic or
    the count of an entry again changes nothing. *)
Theorem extraction_texts_are_stripped
    (R : runtime) (fetch_trend_links : str -> result (list trend_link)) :
  Forall (fun t => str_strip R (topic t) = topic t
                   /\ str_strip R (count t) = count t)
    (get_trending_topics R fetch_trend_links).
Proof.
  apply (Extract.get_trending_topics_invariant R fetch_trend_links
           (Forall (fun t => str_strip R (topic t) = topic t
                             /\ str_strip R (count t) = count t))).
  - constructor.
  - intros acc link Hall _ _ _ _. apply Forall_app. split; [assumption|].
    constructor; [|constructor]. cbn [topic_of_link topic count].
    split; [apply str_strip_idempotent | apply tweet_count_stripped].
Qed.

End HandedTexts.

Module RowProperties.

Lemma sentiment_of_cases (polarity : float) :
  In (sentiment_of polarity) [lit "Positive"; lit "Negative"; lit "Neutral"].
Proof.
  unfold sentiment_of.
  destruct (ltb _ polarity); [now left|].
  destruct (ltb polarity _); [right; now left | right; right; now left].
Qed.

Lemma sentiment_of_zero : sentiment_of (Finite 0) = lit "Neutral".
Proof. vm_compute. reflexivity. Qed.

Lemma analysis_follows_polarity (textblob_polarity : str -> result float)
    (hashtag : str) :
  fst (analyze_hashtag_sentiment textblob_polarity hashtag)
  = sentiment_of (snd (analyze_hashtag_sentiment textblob_polarity hashtag)).
Proof.
  unfold analyze_hashtag_sentiment.
  destruct (textblob_polarity _) as [p | e]; cbn [bind try_except fst snd].
  - reflexivity.
  - now rewrite sentiment_of_zero.
Qed.

(** X26.  In every row the label is the label of the polarity the row
    carries, also when the sentiment library failed and the analyzer put
    Neutral and 0.0 in its place; so the label is always one of Positive,
    Negative and Neutral. *)
Theorem row_label_follows_polarity
    (R : runtime) (textblob_polarity : str -> result float)
    (SCRAPE_VERSION_ID : str) (t : RawTrend) :
  let r := process_topic R textblob_polarity SCRAPE_VERSION_ID t in
  sentiment_label r = sentiment_of (sentiment_polarity r)
  /\ In (sentiment_label r) [lit "Positive"; lit "Negative"; lit "Neutral"].
Proof.
  cbv zeta.
  destruct (Pipeline.process_topic_fields R textblob_polarity SCRAPE_VERSION_ID t)
    as (_ & _ & _ & _ & _ & _ & E & _).
  pose proof (analysis_follows_polarity textblob_polarity (topic t)) as F.
  rewrite <- E in F. cbn [fst snd] in F.
  split; [exact F|]. rewrite F. apply sentiment_of_cases.
Qed.

End RowProperties.

(* ================================================================== *)
(** * The failure paths of the analyzer and of the scorer *)
(* ================================================================== *)

Module Failures.
Import Exact.

(** What the reading of the count can fail with: a count that is not a
    string, digits that [int] refuses, a quotient beyond the floats. *)
Lemma add_count_failures (R : runtime) (score : float) (count_str : value) (e : exn) :
  add_count R score count_str = Raise e ->
  e = AttributeError \/ e = ValueError \/ e = OverflowError.
Proof.
  unfold add_count. destruct count_str as [| n | s]; cbn [str_method bind];
    try (intros H; injection H as <-; now left).
  destruct (scorer_digits R s) as [| d ds]; [discriminate|].
  unfold int_of_digits.
  destruct (decimals R (d :: ds)) as [vs |]; cbn [bind];
    [|intros H; injection H as <-; right; now left].
  destruct (_ && _); cbn [bind]; [intros H; injection H as <-; right; now left|].
  destruct (0 <? digits_value vs); [|discriminate].
  unfold truediv. change (10000 =? 0) with false. cbv iota.
  generalize (round64 (Z.sgn 10000 * digits_value vs * unit_scale) (Z.abs 10000)).
  intros q. destruct q as [u | s' |]; cbn [bind]; try discriminate.
  intros H; injection H as <-. right; now right.
Qed.

Lemma halves_equal_one (n : Z) :
  0 <= n < 2 ^ 53 -> (of_ratio n 2 = of_int 1 <-> n = 2).
Proof.
  intros Hn. rewrite (of_halves_exact n Hn), (of_int_exact 1) by lia.
  rewrite unit_scale_halves. pose proof half_scale_pos as Hp.
  revert Hp. generalize half_scale. intros h Hp. split.
  - intros H.
    assert (Hinj : forall a b, Finite a = Finite b -> a = b)
      by (intros a b Hab; now injection Hab).
    apply Hinj in H. nia.
  - intros ->. f_equal. ring.
Qed.

Lemma bonus_halves_range (R : runtime) (t : str) : 0 <= topic_bonus_halves R t <= 7.
Proof.
  unfold topic_bonus_halves.
  pose proof (ScoreProperties.bool_to_Z_range (any_in trending_keywords (lower R t))).
  pose proof (ScoreProperties.bool_to_Z_range (any_in indian_keywords (lower R t))).
  pose proof (ScoreProperties.bool_to_Z_range (15 <? Z.of_nat (List.length t))).
  pose proof (ScoreProperties.bool_to_Z_range (any_in marker_substrings t)).
  lia.
Qed.

Lemma score_of_failed_count (R : runtime) (topic_data : dict value) (t : str) (e : exn) :
  get topic_data (lit "topic") (VStr []) = VStr t ->
  count_reading_fails R topic_data e ->
  calculate_engagement_score R topic_data = of_ratio (2 + topic_bonus_halves R t) 2.
Proof.
  intros Et [Hg Hf]. cbv zeta in Hg, Hf.
  apply ScoreProperties.score_after_count; [assumption | lia|].
  rewrite Hg, Hf. cbn [try_except]. apply Score.float_1_0.
Qed.

Lemma score_of_failed_body (R : runtime) (topic_data : dict value) :
  (forall s, get topic_data (lit "topic") (VStr []) <> VStr s) ->
  exists e, engagement_score_body R topic_data = Raise e
            /\ calculate_engagement_score R topic_data = of_int 1.
Proof.
  intros Hn. unfold calculate_engagement_score.
  destruct (engagement_score_body R topic_data) as [v | e] eqn:E.
  - exfalso. unfold engagement_score_body in E.
    destruct (get topic_data (lit "topic") (VStr [])) as [| n | s];
      cbn [str_method bind] in E; try discriminate.
    now apply (Hn s).
  - exists e. split; [reflexivity|]. cbn [try_except]. vm_compute. reflexivity.
Qed.

End Failures.

(** C8, as stated, fails: a failure inside the scorer does not always give
    1.0.  A count that is not a string, or one too large for the division,
    fails the reading of the count; the failure is swallowed there and the
    bonuses of the topic are still added: 2.0 for topic ["#India"] with the
    integer 50000 as count, 2.5 for topic ["#news"] with a count of 1
    followed by 313 zeros. *)
Lemma count_failure_keeps_bonuses :
  count_reading_fails ascii_runtime
    [(lit "topic", VStr (lit "#India")); (lit "count", VInt 50000)] AttributeError
  /\ calculate_engagement_score ascii_runtime
       [(lit "topic", VStr (lit "#India")); (lit "count", VInt 50000)] = of_int 2
  /\ count_reading_fails ascii_runtime
       (topic_and_count (lit "#news") (lit "1" ++ repeat 48 313)) OverflowError
  /\ calculate_engagement_score ascii_runtime
       (topic_and_count (lit "#news") (lit "1" ++ repeat 48 313)) = of_ratio 25 10
  /\ ~ (forall (R : runtime) (topic_data : dict value) (e : exn),
          count_reading_fails R topic_data e ->
          calculate_engagement_score R topic_data = of_int 1).
Proof.
  assert (F : count_reading_fails ascii_runtime
                [(lit "topic", VStr (lit "#India")); (lit "count", VInt 50000)]
                AttributeError)
    by (split; vm_compute; reflexivity).
  assert (E : calculate_engagement_score ascii_runtime
                [(lit "topic", VStr (lit "#India")); (lit "count", VInt 50000)]
              = of_int 2)
    by (vm_compute; reflexivity).
  split; [exact F|]. split; [exact E|].
  split; [split; vm_compute; reflexivity|].
  split; [vm_compute; reflexivity|].
  intros H. specialize (H _ _ _ F). rewrite E in H.
  apply (f_equal (ltb (of_int 1))) in H. vm_compute in H. discriminate H.
Qed.

(** C8, amended.  Neither function lets a failure out, and what a failure
    costs depends on where it occurs.  When the sentiment library fails,
    the analyzer returns Neutral with polarity 0.0.  In the scorer, the
    body fails exactly when the topic is not a string, and the score is
    then 1.0.  A failure in the reading of the count (a count that is not a
    string, digits [int] refuses, a quotient beyond the floats) is
    swallowed on the spot and only the count term is lost: the score is 1
    plus the bonuses of the topic, which is 1.0 exactly when no bonus
    applies. *)
Theorem failures_are_absorbed
    (R : runtime) (textblob_polarity : str -> result float) :
  (forall hashtag e,
      textblob_polarity (sentiment_text hashtag) = Raise e ->
      analyze_hashtag_sentiment textblob_polarity hashtag = (lit "Neutral", Finite 0))
  /\ (forall topic_data,
         (exists e, engagement_score_body R topic_data = Raise e)
         <-> (forall s, get topic_data (lit "topic") (VStr []) <> VStr s))
  /\ (forall topic_data e,
         engagement_score_body R topic_data = Raise e ->
         calculate_engagement_score R topic_data = of_int 1)
  /\ (forall topic_data t e,
         get topic_data (lit "topic") (VStr []) = VStr t ->
         count_reading_fails R topic_data e ->
         (e = AttributeError \/ e = ValueError \/ e = OverflowError)
         /\ calculate_engagement_score R topic_data
            = of_ratio (2 + topic_bonus_halves R t) 2
         /\ (calculate_engagement_score R topic_data = of_int 1
             <-> topic_bonus_halves R t = 0)).
Proof.
  split; [|split; [|split]].
  - intros hashtag e E. unfold analyze_hashtag_sentiment.
    fold (sentiment_text hashtag). rewrite E. reflexivity.
  - intros topic_data. split.
    + intros [e E]. now destruct (Score.engagement_score_body_raises R topic_data e E).
    + intros Hn. destruct (Failures.score_of_failed_body R topic_data Hn) as (e & E & _).
      now exists e.
  - intros topic_data e E.
    destruct (Score.engagement_score_body_raises R topic_data e E) as [_ Hn].
    destruct (Failures.score_of_failed_body R topic_data Hn) as (_ & _ & H). exact H.
  - intros topic_data t e Et Hf.
    split; [exact (Failures.add_count_failures R _ _ e (proj2 Hf))|].
    pose proof (Failures.score_of_failed_count R topic_data t e Et Hf) as Hs.
    split; [exact Hs|]. rewrite Hs.
    pose proof (Failures.bonus_halves_range R t) as Hb.
    rewrite Failures.halves_equal_one by lia. lia.
Qed.

Lemma failures_are_absorbed_witness :
  analyze_hashtag_sentiment (fun _ => Raise ExternalError) (lit "#x")
  = (lit "Neutral", Finite 0)
  /\ calculate_engagement_score ascii_runtime [(lit "topic", VNone)] = of_int 1
  /\ calculate_engagement_score ascii_runtime
       [(lit "topic", VStr (lit "#India")); (lit "count", VInt 50000)]
     = of_ratio (2 + topic_bonus_halves ascii_runtime (lit "#India")) 2.
Proof.
  pose proof (failures_are_absorbed ascii_runtime (fun _ => Raise ExternalError))
    as (Hs & _ & Hb & Hc).
  split; [|split].
  - apply (Hs (lit "#x") ExternalError). reflexivity.
  - apply (Hb [(lit "topic", VNone)] AttributeError). vm_compute. reflexivity.
  - apply (Hc [(lit "topic", VStr (lit "#India")); (lit "count", VInt 50000)]
              (lit "#India") AttributeError).
    + reflexivity.
    + split; vm_compute; reflexivity.
Defined.
